(** * The schedule bot of [main.py]: a shallow embedding and its properties

    [main.py] is a Telegram bot.  It reads a weekly schedule from
    [schedule.json], formats the entry of the current weekday, answers the
    commands [/start] and [/today], and once a day sends the formatted
    schedule to every chat recorded in [subscribers.json].

    The embedding follows the program function by function.  Python [str]
    values are sequences of Unicode code points, files and the message
    traffic live in an explicit world that is threaded through a small
    state-and-exception monad, and the third-party pieces the program calls
    ([json], the iteration order of a [set], [User.mention_html]) are the
    fields of a [Runtime] structure that every statement quantifies over. *)

From Stdlib Require Import ZArith NArith List Ascii String Lia.
From stdpp Require Import base option list gmap sets.

Local Open Scope Z_scope.

(** ** Python strings *)

Module PyStr.

(** A Python [str] is a sequence of code points. *)
Abbreviation pystr := (list N) (only parsing).

(** Source literals are written as the UTF-8 text of the [.py] file and
    decoded to code points once and for all. *)
Definition cont (a : ascii) : N := N.land (N_of_ascii a) 63.

Fixpoint utf8_decode_bytes (n : nat) (bs : list ascii) : pystr :=
  match n with
  | O => []
  | S n' =>
    match bs with
    | [] => []
    | b :: r =>
      let x := N_of_ascii b in
      if (x <? 128)%N then x :: utf8_decode_bytes n' r
      else if (x <? 224)%N then
        match r with
        | b1 :: r' =>
          (N.land x 31 * 64 + cont b1)%N :: utf8_decode_bytes n' r'
        | _ => [65533%N]
        end
      else if (x <? 240)%N then
        match r with
        | b1 :: b2 :: r' =>
          (N.land x 15 * 4096 + cont b1 * 64 + cont b2)%N
            :: utf8_decode_bytes n' r'
        | _ => [65533%N]
        end
      else
        match r with
        | b1 :: b2 :: b3 :: r' =>
          (N.land x 7 * 262144 + cont b1 * 4096 + cont b2 * 64 + cont b3)%N
            :: utf8_decode_bytes n' r'
        | _ => [65533%N]
        end
    end
  end.

Definition lit (s : string) : pystr :=
  utf8_decode_bytes (String.length s) (list_ascii_of_string s).

(** [str.isspace] on one code point: the characters [str.strip()] removes. *)
Definition isspace (c : N) : bool :=
  ((9 <=? c) && (c <=? 13) || (28 <=? c) && (c <=? 32)
   || (c =? 133) || (c =? 160) || (c =? 5760)
   || (8192 <=? c) && (c <=? 8202)
   || (c =? 8232) || (c =? 8233) || (c =? 8239) || (c =? 8287)
   || (c =? 12288))%N.

(** [s.lstrip()], [s.rstrip()] and [s.strip()]. *)
Fixpoint lstrip (s : pystr) : pystr :=
  match s with
  | c :: s' => if isspace c then lstrip s' else s
  | [] => []
  end.

Definition rstrip (s : pystr) : pystr := reverse (lstrip (reverse s)).

Definition strip (s : pystr) : pystr := rstrip (lstrip s).

(** [s.startswith(p)]. *)
Fixpoint startswith (p s : pystr) : bool :=
  match p, s with
  | [], _ => true
  | a :: p', b :: s' => (a =? b)%N && startswith p' s'
  | _ :: _, [] => false
  end.

(** [sub in s]: [sub] occurs somewhere in [s]. *)
Fixpoint contains (sub s : pystr) : bool :=
  startswith sub s ||
  match s with
  | [] => false
  | _ :: s' => contains sub s'
  end.

(** The leftmost occurrence of [sep] in [s]: the text before it and the
    text after it ([s.partition(sep)] without the middle component). *)
Fixpoint find_sep (sep s : pystr) : option (pystr * pystr) :=
  if startswith sep s then Some ([], drop (length sep) s)
  else
    match s with
    | [] => None
    | c :: s' =>
      match find_sep sep s' with
      | Some (a, b) => Some (c :: a, b)
      | None => None
      end
    end.

(** [s.split(sep)] for a non-empty [sep] (both call sites pass a non-empty
    constant; Python raises [ValueError] on an empty one).  Occurrences
    are taken left to right and do not overlap.  The text after an
    occurrence is shorter than [s], so [length s] steps are enough. *)
Fixpoint split_steps (n : nat) (sep s : pystr) : list pystr :=
  match find_sep sep s with
  | None => [s]
  | Some (a, b) =>
    match n with
    | O => [s]
    | S n' => a :: split_steps n' sep b
    end
  end.

Definition split (sep s : pystr) : list pystr :=
  split_steps (length s) sep s.

(** [s.count(sep)]: the number of non-overlapping occurrences, left to
    right. *)
Fixpoint count_steps (n : nat) (sep s : pystr) : nat :=
  match find_sep sep s with
  | None => O
  | Some (_, b) =>
    match n with
    | O => O
    | S n' => S (count_steps n' sep b)
    end
  end.

Definition count (sep s : pystr) : nat := count_steps (length s) sep s.

(** The lines of a text in which every line ends with a line feed:
    [s.split("\n")] without the empty piece after the last line feed. *)
Definition LF : N := 10%N.

Fixpoint lines_from (cur : pystr) (s : pystr) : list pystr :=
  match s with
  | [] => match cur with [] => [] | _ => [reverse cur] end
  | c :: s' =>
    if (c =? LF)%N then reverse cur :: lines_from [] s'
    else lines_from (c :: cur) s'
  end.

Definition lines (s : pystr) : list pystr := lines_from [] s.

End PyStr.
Export PyStr.

(** [str(z)] for an integer: its decimal digits, with a minus sign when
    negative. *)
Fixpoint dec_digits (u : Decimal.uint) : pystr :=
  match u with
  | Decimal.Nil => []
  | Decimal.D0 u' => 48%N :: dec_digits u'
  | Decimal.D1 u' => 49%N :: dec_digits u'
  | Decimal.D2 u' => 50%N :: dec_digits u'
  | Decimal.D3 u' => 51%N :: dec_digits u'
  | Decimal.D4 u' => 52%N :: dec_digits u'
  | Decimal.D5 u' => 53%N :: dec_digits u'
  | Decimal.D6 u' => 54%N :: dec_digits u'
  | Decimal.D7 u' => 55%N :: dec_digits u'
  | Decimal.D8 u' => 56%N :: dec_digits u'
  | Decimal.D9 u' => 57%N :: dec_digits u'
  end.

Definition str_of_int (z : Z) : pystr :=
  match Z.to_int z with
  | Decimal.Pos u => dec_digits u
  | Decimal.Neg u => 45%N :: dec_digits u
  end.

(** ** Python values, sets and exceptions *)

(** The values [json.load] can return.  Numbers are integers: the chat
    identifiers the program stores are, and the schedule holds text. *)
#[warnings="-register-all"]
Inductive pyval :=
| PNone
| PBool (b : bool)
| PInt (z : Z)
| PStr (s : pystr)
| PList (l : list pyval)
| PDict (d : gmap pystr pyval).

(** The elements of a Python [set] built from such values, up to Python's
    [==]: [True == 1] and [False == 0], so a Boolean is the integer it
    equals; lists and dicts are unhashable.  Of two equal elements a
    Python set keeps the one that came first, and here it is the integer
    that stands for both: membership and the set are the same, and only a
    Boolean that a hand-written file holds would be printed and written
    back as the integer.  The program itself stores chat identifiers,
    which are integers. *)
Inductive hashable :=
| HNone
| HInt (z : Z)
| HStr (s : pystr).

Global Instance hashable_eq_dec : EqDecision hashable.
Proof. solve_decision. Defined.

Definition hashable_enc (h : hashable) : unit + Z + pystr :=
  match h with
  | HNone => inl (inl tt)
  | HInt z => inl (inr z)
  | HStr s => inr s
  end.

Definition hashable_dec (x : unit + Z + pystr) : hashable :=
  match x with
  | inl (inl _) => HNone
  | inl (inr z) => HInt z
  | inr s => HStr s
  end.

Global Instance hashable_countable : Countable hashable.
Proof. apply (inj_countable' hashable_enc hashable_dec). by intros []. Defined.

Definition hash_key (v : pyval) : option hashable :=
  match v with
  | PNone => Some HNone
  | PBool b => Some (HInt (if b then 1 else 0))
  | PInt z => Some (HInt z)
  | PStr s => Some (HStr s)
  | PList _ | PDict _ => None
  end.

Definition hval (h : hashable) : pyval :=
  match h with
  | HNone => PNone
  | HInt z => PInt z
  | HStr s => PStr s
  end.

(** [str(x)] of a set element, as an f-string renders it. *)
Definition py_str (h : hashable) : pystr :=
  match h with
  | HNone => lit "None"
  | HInt z => str_of_int z
  | HStr s => s
  end.

(** Python truthiness, the test behind [if not x]. *)
Definition truthy (v : pyval) : bool :=
  match v with
  | PNone => false
  | PBool b => b
  | PInt z => negb (z =? 0)
  | PStr s => negb (bool_decide (s = []))
  | PList l => negb (bool_decide (l = []))
  | PDict d => negb (bool_decide (d = ∅))
  end.

(** The exception classes that occur.  [CancelledError] derives from
    [BaseException] only; every other class derives from [Exception].
    [JSONDecodeError] derives from [ValueError], and no other class here
    derives from [JSONDecodeError]. *)
Inductive exn_class :=
| FileNotFoundError
| JSONDecodeError
| RecursionError
| ValueError
| UnicodeDecodeError
| TypeError
| AttributeError
| TelegramError
| CancelledError.

Global Instance exn_class_eq_dec : EqDecision exn_class.
Proof. solve_decision. Defined.

Record exn := { exn_cls : exn_class; exn_msg : pystr }.

(** [isinstance(e, Exception)] and [isinstance(e, json.JSONDecodeError)]. *)
Definition is_Exception (e : exn) : bool :=
  negb (bool_decide (exn_cls e = CancelledError)).

Definition is_JSONDecodeError (e : exn) : bool :=
  bool_decide (exn_cls e = JSONDecodeError).

Inductive result (A : Type) :=
| Ok (a : A)
| Raise (e : exn).
Arguments Ok {A} a.
Arguments Raise {A} e.

(** [set(data)]: the elements of a list, the characters of a string or the
    keys of a dict; [TypeError] on an unhashable element and on a value
    that is not iterable. *)
Definition py_set (data : pyval) : result (gset hashable) :=
  match data with
  | PList l =>
    match mapM hash_key l with
    | Some hs => Ok (list_to_set hs)
    | None => Raise {| exn_cls := TypeError; exn_msg := lit "unhashable type" |}
    end
  | PStr s => Ok (list_to_set ((fun c => HStr [c]) <$> s))
  | PDict d => Ok (list_to_set (HStr <$> (map_to_list d).*1))
  | PNone | PBool _ | PInt _ =>
    Raise {| exn_cls := TypeError; exn_msg := lit "object is not iterable" |}
  end.

(** ** The world the program runs in *)

Inductive weekday :=
| Monday | Tuesday | Wednesday | Thursday | Friday | Saturday | Sunday.

(** [strftime("%A")]: the full weekday name.  The program never calls
    [locale.setlocale], so the names are those of the C locale. *)
Definition strftime_A (d : weekday) : pystr :=
  match d with
  | Monday => lit "Monday"
  | Tuesday => lit "Tuesday"
  | Wednesday => lit "Wednesday"
  | Thursday => lit "Thursday"
  | Friday => lit "Friday"
  | Saturday => lit "Saturday"
  | Sunday => lit "Sunday"
  end.

(** What the program does to the outside, in the order it does it. *)
Inductive event :=
| EvWrite (path content : pystr)
| EvReplyHtml (chat : Z) (text : pystr)
| EvReplyText (chat : Z) (text : pystr)
| EvSend (chat : hashable) (text : pystr)
| EvLogError (msg : pystr)
| EvLogInfo (msg : pystr).

(** The fields of a cron trigger, most significant first. *)
Inductive cron_field :=
| Year | Month | Day | Week | DayOfWeek | Hour | Minute | Second.

Global Instance cron_field_eq_dec : EqDecision cron_field.
Proof. solve_decision. Defined.

(** A cron job of the scheduler: the name of the coroutine it calls, the
    keyword arguments of its trigger and the time zone it runs in. *)
Record job := {
  job_func : pystr;
  job_trigger : list (cron_field * Z);
  job_timezone : pystr }.

(** - [today_is]: the weekday of [datetime.now(TIMEZONE)];
    - [files]: the text of each file of the working directory;
    - [net]: what [bot.send_message(chat_id, text)] does, [None] for a
      delivered message and [Some e] for a raised [e];
    - [jobs]: the jobs added to the scheduler;
    - [trace]: the events so far. *)
Record world := {
  today_is : weekday;
  files : gmap pystr pystr;
  net : hashable -> pystr -> option exn;
  jobs : list job;
  trace : list event }.

Definition set_files (f : gmap pystr pystr) (w : world) : world :=
  {| today_is := today_is w; files := f; net := net w; jobs := jobs w;
     trace := trace w |}.

Definition set_jobs (j : list job) (w : world) : world :=
  {| today_is := today_is w; files := files w; net := net w; jobs := j;
     trace := trace w |}.

Definition emit (e : event) (w : world) : world :=
  {| today_is := today_is w; files := files w; net := net w; jobs := jobs w;
     trace := trace w ++ [e] |}.

Definition emit_all (es : list event) (w : world) : world :=
  {| today_is := today_is w; files := files w; net := net w; jobs := jobs w;
     trace := trace w ++ es |}.

(** A Python computation: it reads and changes the world and returns a
    value or raises; the world keeps what was done before the raise. *)
Definition M (A : Type) : Type := world -> result A * world.

Definition ret {A} (a : A) : M A := fun w => (Ok a, w).

Definition raise {A} (e : exn) : M A := fun w => (Raise e, w).

Definition bind {A B} (m : M A) (k : A -> M B) : M B :=
  fun w =>
    match m w with
    | (Ok a, w') => k a w'
    | (Raise e, w') => (Raise e, w')
    end.

Notation "x <- m ;; k" := (bind m (fun x => k))
  (at level 100, m at next level, right associativity).
Notation "m ;;; k" := (bind m (fun _ => k))
  (at level 100, right associativity).

(** [try: body  except C as e: handler e], where [catches] decides
    [isinstance(e, C)]. *)
Definition try_except {A} (body : M A) (catches : exn -> bool)
    (handler : exn -> M A) : M A :=
  fun w =>
    match body w with
    | (Ok a, w') => (Ok a, w')
    | (Raise e, w') => if catches e then handler e w' else (Raise e, w')
    end.

(** [for x in xs: body x]. *)
Fixpoint for_each {A} (xs : list A) (body : A -> M unit) : M unit :=
  match xs with
  | [] => ret tt
  | x :: xs' => body x ;;; for_each xs' body
  end.

Definition lift {A} (r : result A) : M A := fun w => (r, w).

Definition event_do (e : event) : M unit := fun w => (Ok tt, emit e w).

(** [os.path.exists(path)]. *)
Definition os_path_exists (path : pystr) : M bool :=
  fun w => (Ok (bool_decide (is_Some (files w !! path))), w).

(** [open(path, "r")] followed by reading the whole file. *)
Definition open_read (path : pystr) : M pystr :=
  fun w =>
    match files w !! path with
    | Some text => (Ok text, w)
    | None =>
      (Raise {| exn_cls := FileNotFoundError; exn_msg := path |}, w)
    end.

(** [open(path, "w")] followed by writing [text]. *)
Definition open_write (path text : pystr) : M unit :=
  fun w => (Ok tt, emit (EvWrite path text) (set_files (<[path := text]> (files w)) w)).

(** [datetime.now(TIMEZONE)], of which the program uses the weekday. *)
Definition datetime_now : M weekday := fun w => (Ok (today_is w), w).

(** [await application.bot.send_message(chat_id=chat_id, text=text)]. *)
Definition send_message (chat_id : hashable) (text : pystr) : M unit :=
  fun w =>
    let w' := emit (EvSend chat_id text) w in
    match net w chat_id text with
    | None => (Ok tt, w')
    | Some e => (Raise e, w')
    end.

Definition logger_error (msg : pystr) : M unit := event_do (EvLogError msg).
Definition logger_info (msg : pystr) : M unit := event_do (EvLogInfo msg).

(** The parts of a Telegram [Update] the handlers use. *)
Record User := { user_id : Z; full_name : pystr }.

Record Update := { effective_user : User; effective_chat_id : Z }.

(** [await update.message.reply_html(text)] and [reply_text(text)]. *)
Definition reply_html (update : Update) (text : pystr) : M unit :=
  event_do (EvReplyHtml (effective_chat_id update) text).

Definition reply_text (update : Update) (text : pystr) : M unit :=
  event_do (EvReplyText (effective_chat_id update) text).

(** The library functions the program calls and does not define:
    - [json_loads text]: the value [json.load] returns for a file holding
      [text], [None] when it raises;
    - [json_error text]: the exception [json.load] raises when it returns
      no value: a [JSONDecodeError] for a text that is no JSON, and also a
      [RecursionError] for arrays and objects nested deeper than the
      interpreter allows, a [ValueError] for an integer of more digits
      than the interpreter converts, a [UnicodeDecodeError] for a file
      that does not decode;
    - [json_dumps v]: the text [json.dump] writes;
    - [set_iter s]: the order in which iterating the set [s] yields its
      elements;
    - [mention_html user]: [user.mention_html()]. *)
Class Runtime := {
  json_loads : pystr -> option pyval;
  json_error : pystr -> exn;
  json_dumps : pyval -> pystr;
  set_iter : gset hashable -> list hashable;
  mention_html : User -> pystr }.

(** Iterating a set yields each element once. *)
Definition iter_each_once `{rt : Runtime} (s : gset hashable) : Prop :=
  set_iter s ≡ₚ elements s.

(** ** The program *)

Section Program.
Context `{rt : Runtime}.

Definition SCHEDULE_FILE : pystr := lit "schedule.json".
Definition SUBSCRIBERS_FILE : pystr := lit "subscribers.json".
Definition TIMEZONE : pystr := lit "Asia/Baku".

Definition DAYS_MAPPING : gmap pystr pystr :=
  list_to_map
    [ (lit "Monday", lit "Понедельник");
      (lit "Tuesday", lit "Вторник");
      (lit "Wednesday", lit "Среда");
      (lit "Thursday", lit "Четверг");
      (lit "Friday", lit "Пятница");
      (lit "Saturday", lit "Суббота");
      (lit "Sunday", lit "Воскресенье") ].

(** [json.load(f)] on the text read from [f]: the value, or the exception
    the library raises. *)
Definition json_load (text : pystr) : M pyval :=
  match json_loads text with
  | Some v => ret v
  | None => raise (json_error text)
  end.

Definition load_schedule : M pyval :=
  f <- open_read SCHEDULE_FILE ;;
  json_load f.

Definition load_subscribers : M (gset hashable) :=
  found <- os_path_exists SUBSCRIBERS_FILE ;;
  if negb found then ret ∅
  else
    f <- open_read SUBSCRIBERS_FILE ;;
    try_except
      (data <- json_load f ;;
       lift (py_set data))
      is_JSONDecodeError
      (fun _ => ret ∅).

Definition save_subscriber (chat_id : Z) : M unit :=
  subscribers <- load_subscribers ;;
  if bool_decide (HInt chat_id ∈ subscribers) then ret tt
  else
    let subscribers := subscribers ∪ {[HInt chat_id]} in
    open_write SUBSCRIBERS_FILE
      (json_dumps (PList (hval <$> set_iter subscribers))).

(** [schedule_data.get(key)]: only a dict has the method. *)
Definition get_method (schedule_data : pyval) (key : pystr) : M pyval :=
  match schedule_data with
  | PDict d => ret (default PNone (d !! key))
  | _ =>
    raise {| exn_cls := AttributeError;
             exn_msg := lit "object has no attribute 'get'" |}
  end.

(** [schedule_text.split(sep)]: only a string has the method. *)
Definition split_method (schedule_text : pyval) (sep : pystr)
    : M (list pystr) :=
  match schedule_text with
  | PStr s => ret (split sep s)
  | _ =>
    raise {| exn_cls := AttributeError;
             exn_msg := lit "object has no attribute 'split'" |}
  end.

(** One turn of the loop over the entries: the message after [entry]. *)
Definition add_entry (message entry : pystr) : pystr :=
  if contains (lit " - ") entry then
    let parts := split (lit " - ") entry in
    if (length parts =? 2)%nat then
      let name := nth 0 parts [] in
      let time := nth 1 parts [] in
      message ++ time ++ lit " — " ++ name ++ [LF]
    else message ++ entry ++ [LF]
  else message ++ entry ++ [LF].

(** What the turn for [entry] appends to the message. *)
Definition entry_line (entry : pystr) : pystr := add_entry [] entry.

Definition error_message (day_name_en : pystr) : pystr :=
  lit "Error: Could not map day " ++ day_name_en ++ lit " to Russian.".

Definition no_classes_message (day_name_ru : pystr) : pystr :=
  lit "Сегодня " ++ day_name_ru ++ lit ":" ++ [LF] ++ lit "Нет занятий.".

Definition get_schedule_message_for_today : M pystr :=
  now_baku <- datetime_now ;;
  let day_name_en := strftime_A now_baku in
  let day_name_ru := DAYS_MAPPING !! day_name_en in
  match day_name_ru with
  | None | Some [] => ret (error_message day_name_en)
  | Some day_name_ru =>
    schedule_data <- load_schedule ;;
    schedule_text <- get_method schedule_data day_name_ru ;;
    if negb (truthy schedule_text) then ret (no_classes_message day_name_ru)
    else
      let message := lit "Сегодня " ++ day_name_ru ++ lit ":" ++ [LF] in
      pieces <- split_method schedule_text (lit ",") ;;
      let entries := strip <$> pieces in
      ret (fold_left add_entry entries message)
  end.

Definition greeting (user : User) : pystr :=
  lit "Привет, " ++ mention_html user ++
  lit "! Я буду отправлять тебе расписание каждый день в 08:00 по Баку. Напиши /today чтобы узнать расписание на сегодня.".

Definition start (update : Update) : M unit :=
  let user := effective_user update in
  let chat_id := effective_chat_id update in
  save_subscriber chat_id ;;;
  reply_html update (greeting user).

Definition today (update : Update) : M unit :=
  message <- get_schedule_message_for_today ;;
  reply_text update message.

(** The text of the logged error,
    [f"Failed to send message to {chat_id}: {e}"]. *)
Definition failure_log (chat_id : hashable) (e : exn) : pystr :=
  lit "Failed to send message to " ++ py_str chat_id ++ lit ": " ++ exn_msg e.

(** One turn of the job's loop: the send and its [except Exception]. *)
Definition job_turn (message : pystr) (chat_id : hashable) : M unit :=
  try_except
    (send_message chat_id message)
    is_Exception
    (fun e => logger_error (failure_log chat_id e)).

Definition send_schedule_job : M unit :=
  message <- get_schedule_message_for_today ;;
  subscribers <- load_subscribers ;;
  for_each (set_iter subscribers) (job_turn message).

(** The events of one turn that runs to its end: the attempt to send, and
    the logged error when the attempt raises [e]. *)
Definition turn_events (network : hashable -> pystr -> option exn)
    (message : pystr) (chat_id : hashable) : list event :=
  EvSend chat_id message ::
  match network chat_id message with
  | None => []
  | Some e => [EvLogError (failure_log chat_id e)]
  end.

(** [scheduler.add_job(func, 'cron', hour=.., minute=..)] on a scheduler
    created with [timezone]; [trigger] holds the keyword arguments. *)
Definition add_job (func : pystr) (trigger : list (cron_field * Z))
    (timezone : pystr) : M unit :=
  fun w =>
    (Ok tt,
     set_jobs (jobs w ++ [{| job_func := func; job_trigger := trigger;
                           job_timezone := timezone |}]) w).

Definition post_init : M unit :=
  add_job (lit "send_schedule_job") [(Hour, 8); (Minute, 0)] TIMEZONE ;;;
  logger_info (lit "Scheduler started").

(** The application [__main__] builds: [exit(1)] after a printed message
    when [TELEGRAM_TOKEN] is unset or empty, and otherwise the start-up
    hook and the command handlers, in the order they are added. *)
Record Application := {
  app_post_init : M unit;
  app_handlers : list (pystr * (Update -> M unit)) }.

Inductive startup :=
| Exit (code : Z) (printed : pystr)
| RunPolling (application : Application).

Definition main (TOKEN : option pystr) : startup :=
  match TOKEN with
  | None | Some [] =>
    Exit 1 (lit "Error: TELEGRAM_TOKEN not found in environment variables.")
  | Some _ =>
    RunPolling
      {| app_post_init := post_init;
         app_handlers := [(lit "start", start); (lit "today", today)] |}
  end.

(** The handler the application runs for the command [/command]: the
    first one added for it, if any. *)
Fixpoint handler_for (handlers : list (pystr * (Update -> M unit)))
    (command : pystr) : option (Update -> M unit) :=
  match handlers with
  | [] => None
  | (name, callback) :: rest =>
    if bool_decide (name = command) then Some callback
    else handler_for rest command
  end.

(** The worlds whose subscriber store is the work of the program: no file
    yet, or the world after a [save_subscriber] in such a world. *)
Inductive persisted : world -> Prop :=
| persisted_fresh w :
    files w !! SUBSCRIBERS_FILE = None -> persisted w
| persisted_save w chat_id w' :
    persisted w -> save_subscriber chat_id w = (Ok tt, w') -> persisted w'.

(** What the specification says of the message of a day whose schedule is
    a non-empty string: one output line for the header and then exactly
    one per comma-separated entry. *)
Definition one_line_per_entry (w : world) : Prop :=
  forall ftext sched ru text,
    DAYS_MAPPING !! strftime_A (today_is w) = Some ru ->
    files w !! SCHEDULE_FILE = Some ftext ->
    json_loads ftext = Some (PDict sched) ->
    sched !! ru = Some (PStr text) ->
    text <> [] ->
    exists message,
      get_schedule_message_for_today w = (Ok message, w)
      /\ (fun l => l ++ [LF]) <$> lines message
         = (lit "Сегодня " ++ ru ++ lit ":" ++ [LF])
           :: (entry_line <$> (strip <$> split (lit ",") text)).

(** What the specification says of a failing send: whichever subscriber
    it is whose send raises, the error is logged, every subscriber after
    that one is still attempted, and the job is not aborted. *)
Definition no_failure_aborts (w : world) : Prop :=
  forall message S before c after e,
    (get_schedule_message_for_today w).1 = Ok message ->
    (load_subscribers w).1 = Ok S ->
    set_iter S = before ++ c :: after ->
    net w c message = Some e ->
    exists w',
      send_schedule_job w = (Ok tt, w')
      /\ EvLogError (failure_log c e) ∈ trace w'
      /\ Forall (fun c' => EvSend c' message ∈ trace w') after.

(** What the specification says of a store that is missing or does not
    parse as JSON: [load_subscribers] does not raise, it returns the empty
    set. *)
Definition bad_store_loads_empty (w : world) : Prop :=
  files w !! SUBSCRIBERS_FILE = None
  \/ (exists text,
        files w !! SUBSCRIBERS_FILE = Some text /\ json_loads text = None) ->
  (load_subscribers w).1 = Ok ∅.

End Program.

(** ** The cron trigger of the scheduler library *)












(** ** A concrete runtime *)

(** An executable instance of [Runtime], on which the statements below are
    run at concrete files: a reader and a writer for JSON texts whose
    numbers are integers, iteration of a set in the order of [elements],
    and the mention markup of the Telegram client. *)
Module MiniJson.

Definition is_ws (c : N) : bool :=
  ((c =? 32) || (c =? 9) || (c =? 10) || (c =? 13))%N.

Fixpoint skip_ws (s : pystr) : pystr :=
  match s with
  | c :: s' => if is_ws c then skip_ws s' else s
  | [] => []
  end.

Definition is_digit (c : N) : bool := ((48 <=? c) && (c <=? 57))%N.

Fixpoint take_digits (s : pystr) : pystr * pystr :=
  match s with
  | c :: s' =>
    if is_digit c then let (ds, r) := take_digits s' in (c :: ds, r)
    else ([], s)
  | [] => ([], [])
  end.

Definition digits_value (ds : pystr) : Z :=
  fold_left (fun acc c => 10 * acc + (Z.of_N c - 48)) ds 0.

(** Why the reader gives up on a text: it is no JSON, an array or object
    lies deeper than [recursion_limit], or an integer has more digits
    than [max_str_digits]. *)
Inductive fault := Malformed | TooDeep | TooManyDigits.

(** What a reader returns: the value read and the text after it, or the
    fault it met first, going from left to right. *)
Definition parsed (A : Type) : Type := (fault + A * pystr)%type.

(** [sys.getrecursionlimit()] and [sys.get_int_max_str_digits()], at the
    values a new interpreter has.  The scanner enters one recursive call
    for each array and object it opens; how deep it gets in an interpreter
    depends on the frames in use as well, and 1000 stands for that here. *)
Definition recursion_limit : nat := 1000.
Definition max_str_digits : nat := 4300.

(** An integer literal: digits without a superfluous leading zero, and no
    fraction or exponent after them. *)
Definition parse_nat_lit (s : pystr) : parsed Z :=
  match take_digits s with
  | ([], _) => inl Malformed
  | (48%N :: _ :: _, _) => inl Malformed
  | (ds, r) =>
    match r with
    | 46%N :: _ | 101%N :: _ | 69%N :: _ => inl Malformed
    | _ =>
      if (max_str_digits <? length ds)%nat then inl TooManyDigits
      else inr (digits_value ds, r)
    end
  end.

Definition hex_value (c : N) : option N :=
  if is_digit c then Some (c - 48)%N
  else if ((97 <=? c) && (c <=? 102))%N then Some (c - 87)%N
  else if ((65 <=? c) && (c <=? 70))%N then Some (c - 55)%N
  else None.

Definition hex4 (a b c d : N) : option N :=
  match hex_value a, hex_value b, hex_value c, hex_value d with
  | Some x, Some y, Some z, Some t => Some (x * 4096 + y * 256 + z * 16 + t)%N
  | _, _, _, _ => None
  end.

Definition escaped (c : N) : option N :=
  match c with
  | 34 => Some 34 | 92 => Some 92 | 47 => Some 47 | 98 => Some 8
  | 102 => Some 12 | 110 => Some 10 | 114 => Some 13 | 116 => Some 9
  | _ => None
  end%N.

(** The characters of a string literal after its opening quote, up to the
    closing quote. *)
Fixpoint parse_chars (s : pystr) : option (pystr * pystr) :=
  match s with
  | [] => None
  | 34%N :: r => Some ([], r)
  | 92%N :: 117%N :: a :: b :: c :: d :: r =>
    match hex4 a b c d, parse_chars r with
    | Some x, Some (cs, r') => Some (x :: cs, r')
    | _, _ => None
    end
  | 92%N :: e :: r =>
    match escaped e, parse_chars r with
    | Some x, Some (cs, r') => Some (x :: cs, r')
    | _, _ => None
    end
  | c :: r =>
    if (c <? 32)%N then None
    else
      match parse_chars r with
      | Some (cs, r') => Some (c :: cs, r')
      | None => None
      end
  end.

Fixpoint parse_value (fuel depth : nat) (s : pystr) : parsed pyval :=
  match fuel with
  | O => inl Malformed
  | S n =>
    match skip_ws s with
    | 110%N :: r =>
      if startswith (lit "ull") r then inr (PNone, drop 3 r)
      else inl Malformed
    | 116%N :: r =>
      if startswith (lit "rue") r then inr (PBool true, drop 3 r)
      else inl Malformed
    | 102%N :: r =>
      if startswith (lit "alse") r then inr (PBool false, drop 4 r)
      else inl Malformed
    | 34%N :: r =>
      match parse_chars r with
      | Some (cs, r') => inr (PStr cs, r')
      | None => inl Malformed
      end
    | 45%N :: r =>
      match parse_nat_lit r with
      | inr (z, r') => inr (PInt (- z), r')
      | inl f => inl f
      end
    | 91%N :: r =>
      match depth with
      | O => inl TooDeep
      | S d =>
        match skip_ws r with
        | 93%N :: r' => inr (PList [], r')
        | _ =>
          match parse_elems n d r with
          | inr (vs, r') => inr (PList vs, r')
          | inl f => inl f
          end
        end
      end
    | 123%N :: r =>
      match depth with
      | O => inl TooDeep
      | S d =>
        match skip_ws r with
        | 125%N :: r' => inr (PDict ∅, r')
        | _ =>
          match parse_members n d r with
          | inr (kvs, r') => inr (PDict (list_to_map (reverse kvs)), r')
          | inl f => inl f
          end
        end
      end
    | r =>
      match parse_nat_lit r with
      | inr (z, r') => inr (PInt z, r')
      | inl f => inl f
      end
    end
  end
with parse_elems (fuel depth : nat) (s : pystr) : parsed (list pyval) :=
  match fuel with
  | O => inl Malformed
  | S n =>
    match parse_value n depth s with
    | inr (v, r) =>
      match skip_ws r with
      | 44%N :: r' =>
        match parse_elems n depth r' with
        | inr (vs, r'') => inr (v :: vs, r'')
        | inl f => inl f
        end
      | 93%N :: r' => inr ([v], r')
      | _ => inl Malformed
      end
    | inl f => inl f
    end
  end
with parse_members (fuel depth : nat) (s : pystr)
    : parsed (list (pystr * pyval)) :=
  match fuel with
  | O => inl Malformed
  | S n =>
    match skip_ws s with
    | 34%N :: r =>
      match parse_chars r with
      | Some (k, r1) =>
        match skip_ws r1 with
        | 58%N :: r2 =>
          match parse_value n depth r2 with
          | inr (v, r3) =>
            match skip_ws r3 with
            | 44%N :: r4 =>
              match parse_members n depth r4 with
              | inr (kvs, r5) => inr ((k, v) :: kvs, r5)
              | inl f => inl f
              end
            | 125%N :: r4 => inr ([(k, v)], r4)
            | _ => inl Malformed
            end
          | inl f => inl f
          end
        | _ => inl Malformed
        end
      | None => inl Malformed
      end
    | _ => inl Malformed
    end
  end.

(** The whole text: one value and nothing but whitespace after it. *)
Definition parse_text (s : pystr) : fault + pyval :=
  match parse_value (2 * length s + 2) recursion_limit s with
  | inr (v, r) => match skip_ws r with [] => inr v | _ => inl Malformed end
  | inl f => inl f
  end.

Definition loads (s : pystr) : option pyval :=
  match parse_text s with
  | inr v => Some v
  | inl _ => None
  end.

(** The exception for the fault of a text, with its message cut short. *)
Definition loads_error (s : pystr) : exn :=
  match parse_text s with
  | inl TooDeep =>
    {| exn_cls := RecursionError;
       exn_msg := lit "maximum recursion depth exceeded" |}
  | inl TooManyDigits =>
    {| exn_cls := ValueError;
       exn_msg := lit "Exceeds the limit for integer string conversion" |}
  | _ => {| exn_cls := JSONDecodeError; exn_msg := lit "Expecting value" |}
  end.

Definition hex_digit (n : N) : N :=
  if (n <? 10)%N then (48 + n)%N else (87 + n)%N.

Definition u_escape (c : N) : pystr :=
  [92; 117; hex_digit (c / 4096); hex_digit (c / 256 mod 16);
   hex_digit (c / 16 mod 16); hex_digit (c mod 16)]%N.

(** One character of a string literal, as [ensure_ascii] writes it. *)
Definition dump_char (c : N) : pystr :=
  if (c =? 34)%N then [92; 34]%N
  else if (c =? 92)%N then [92; 92]%N
  else if (c =? 10)%N then [92; 110]%N
  else if (c =? 13)%N then [92; 114]%N
  else if (c =? 9)%N then [92; 116]%N
  else if (c =? 8)%N then [92; 98]%N
  else if (c =? 12)%N then [92; 102]%N
  else if ((32 <=? c) && (c <? 127))%N then [c]
  else if (c <? 65536)%N then u_escape c
  else
    let v := (c - 65536)%N in
    u_escape (55296 + v / 1024) ++ u_escape (56320 + v mod 1024).

Definition dump_str (s : pystr) : pystr :=
  [34%N] ++ concat (dump_char <$> s) ++ [34%N].

Fixpoint join (sep : pystr) (xs : list pystr) : pystr :=
  match xs with
  | [] => []
  | [x] => x
  | x :: xs' => x ++ sep ++ join sep xs'
  end.

Fixpoint dumps (v : pyval) : pystr :=
  match v with
  | PNone => lit "null"
  | PBool true => lit "true"
  | PBool false => lit "false"
  | PInt z => str_of_int z
  | PStr s => dump_str s
  | PList l => lit "[" ++ join (lit ", ") (dumps <$> l) ++ lit "]"
  | PDict d =>
    lit "{"
    ++ join (lit ", ")
         (map_fold (fun k x acc => (dump_str k ++ lit ": " ++ dumps x) :: acc)
            [] d)
    ++ lit "}"
  end.

Fixpoint html_escape (s : pystr) : pystr :=
  match s with
  | [] => []
  | c :: s' =>
    (if (c =? 38)%N then lit "&amp;"
     else if (c =? 60)%N then lit "&lt;"
     else if (c =? 62)%N then lit "&gt;"
     else if (c =? 34)%N then lit "&quot;"
     else [c]) ++ html_escape s'
  end.

Definition mention (u : User) : pystr :=
  lit "<a href=" ++ [34%N] ++ lit "tg://user?id=" ++ str_of_int (user_id u)
  ++ [34%N] ++ lit ">" ++ html_escape (full_name u) ++ lit "</a>".

Definition runtime : Runtime :=
  {| json_loads := loads;
     json_error := loads_error;
     json_dumps := dumps;
     set_iter := elements;
     mention_html := mention |}.

End MiniJson.

(** ** Sample worlds *)

(** Worlds on which the statements below are run: a weekday, the text of
    the two files when they exist, a network that delivers every message
    unless told otherwise, and nothing done yet. *)
Definition quoted (s : pystr) : pystr := [34%N] ++ s ++ [34%N].

Definition sample_files (schedule subscribers : option pystr)
    : gmap pystr pystr :=
  match schedule with
  | Some text => {[ lit "schedule.json" := text ]}
  | None => ∅
  end ∪
  match subscribers with
  | Some text => {[ lit "subscribers.json" := text ]}
  | None => ∅
  end.

Definition sample_world (d : weekday) (schedule subscribers : option pystr)
    (network : hashable -> pystr -> option exn) : world :=
  {| today_is := d; files := sample_files schedule subscribers;
     net := network; jobs := []; trace := [] |}.

Definition delivers_all : hashable -> pystr -> option exn := fun _ _ => None.

(** [{"Понедельник": "Math - 10:00, PE ,Art - room 5 - 12:00"}] *)
Definition monday_schedule : pystr :=
  lit "{" ++ quoted (lit "Понедельник") ++ lit ": "
  ++ quoted (lit "Math - 10:00, PE ,Art - room 5 - 12:00") ++ lit "}".

(** [{"Понедельник": "Math\nPE"}], the value holding a line feed. *)
Definition monday_two_lines : pystr :=
  lit "{" ++ quoted (lit "Понедельник") ++ lit ": "
  ++ quoted (lit "Math\nPE") ++ lit "}".

(** [{"Вторник": "Math - 10:00", "Понедельник": ""}] *)
Definition monday_empty : pystr :=
  lit "{" ++ quoted (lit "Вторник") ++ lit ": " ++ quoted (lit "Math - 10:00")
  ++ lit ", " ++ quoted (lit "Понедельник") ++ lit ": " ++ quoted [] ++ lit "}".

(** The message for [monday_schedule]. *)
Definition monday_message : pystr :=
  lit "Сегодня Понедельник:" ++ [LF] ++ lit "10:00 — Math" ++ [LF]
  ++ lit "PE" ++ [LF] ++ lit "Art - room 5 - 12:00" ++ [LF].

Definition monday_world : world :=
  sample_world Monday (Some monday_schedule) None delivers_all.

Definition monday_two_lines_world : world :=
  sample_world Monday (Some monday_two_lines) None delivers_all.

Definition monday_empty_world : world :=
  sample_world Monday (Some monday_empty) None delivers_all.

(** A world whose subscribers file holds [[5, 7]], and one whose file is
    cut off after [[5, 7]. *)
Definition two_subscribers_world : world :=
  sample_world Monday (Some monday_schedule) (Some (lit "[5, 7]")) delivers_all.

Definition malformed_subscribers_world : world :=
  sample_world Monday (Some monday_schedule) (Some (lit "[5, 7")) delivers_all.

(** A network on which sending to chat 7 raises a [TelegramError]. *)
Definition blocked : exn :=
  {| exn_cls := TelegramError;
     exn_msg := lit "Forbidden: bot was blocked by the user" |}.

Definition blocked_by_7 : hashable -> pystr -> option exn :=
  fun chat_id _ =>
    if bool_decide (chat_id = HInt 7)
    then Some blocked
    else None.

Definition blocked_world : world :=
  sample_world Monday (Some monday_schedule) (Some (lit "[5, 7, 9]"))
    blocked_by_7.

(** A world whose subscribers file holds the number [5], one without a
    schedule file, and a network on which the send to chat 7 is
    cancelled. *)
Definition number_store_world : world :=
  sample_world Monday (Some monday_schedule) (Some (lit "5")) delivers_all.

Definition no_schedule_world : world :=
  sample_world Monday None (Some (lit "[5, 7, 9]")) delivers_all.

Definition cancelled : exn :=
  {| exn_cls := CancelledError; exn_msg := [] |}.

Definition cancelled_at_7 : hashable -> pystr -> option exn :=
  fun chat_id _ =>
    if bool_decide (chat_id = HInt 7) then Some cancelled else None.

Definition cancelled_world : world :=
  sample_world Monday (Some monday_schedule) (Some (lit "[5, 7, 9]"))
    cancelled_at_7.

(** A world whose subscribers file is 100000 opening brackets,
    ['[' * 100000], and one whose subscribers file is a list of one
    integer of 5000 digits. *)
Definition deep_store : pystr := replicate (N.to_nat 100000) 91%N.

Definition deep_store_world : world :=
  sample_world Monday (Some monday_schedule) (Some deep_store) delivers_all.

Definition long_number_store : pystr :=
  lit "[" ++ replicate (N.to_nat 5000) 49%N ++ lit "]".

Definition long_number_store_world : world :=
  sample_world Monday (Some monday_schedule) (Some long_number_store)
    delivers_all.

Definition sample_update : Update :=
  {| effective_user := {| user_id := 9; full_name := lit "Nur" |};
     effective_chat_id := 9 |}.

(** ** Notions for the further properties *)

(** [sep.join(pieces)]. *)
Fixpoint str_join (sep : pystr) (pieces : list pystr) : pystr :=
  match pieces with
  | [] => []
  | [p] => p
  | p :: rest => p ++ sep ++ str_join sep rest
  end.

(** The list [save_subscriber] writes for the set [S] reads back as [S]:
    iterating [S] yields each element once, and [json.load] returns the
    written list. *)
Definition reads_back `{rt : Runtime} (S : gset hashable) : Prop :=
  iter_each_once S
  /\ json_loads (json_dumps (PList (hval <$> set_iter S)))
     = Some (PList (hval <$> set_iter S)).

(** The same for every list written while the chats [ids] are saved one
    after the other, starting from the set [S]. *)
Fixpoint reads_back_along `{rt : Runtime} (S : gset hashable) (ids : list Z)
    : Prop :=
  match ids with
  | [] => True
  | c :: rest =>
    (HInt c ∉ S -> reads_back (S ∪ {[HInt c]}))
    /\ reads_back_along (S ∪ {[HInt c]}) rest
  end.

Definition is_send (ev : event) : bool :=
  match ev with EvSend _ _ => true | _ => false end.

Definition is_log_error (ev : event) : bool :=
  match ev with EvLogError _ => true | _ => false end.

Definition is_write (ev : event) : bool :=
  match ev with EvWrite _ _ => true | _ => false end.

Definition is_reply (ev : event) : bool :=
  match ev with EvReplyHtml _ _ | EvReplyText _ _ => true | _ => false end.

(** The chats of a list of updates, as set elements. *)
Definition chats_of (updates : list Update) : gset hashable :=
  list_to_set ((fun u => HInt (effective_chat_id u)) <$> updates).

Definition sends_to (chat_id : hashable) (ev : event) : bool :=
  match ev with
  | EvSend c _ => bool_decide (c = chat_id)
  | _ => false
  end.

(** How many of the events [es] satisfy [p]. *)
Fixpoint count_events (p : event -> bool) (es : list event) : nat :=
  match es with
  | [] => O
  | ev :: rest => ((if p ev then 1 else 0) + count_events p rest)%nat
  end.

(** Further sample worlds: a schedule file that is cut off, one that holds
    a list, one whose entry for Monday is the number [3], one whose entry
    is blanks and commas, and a subscribers file that is cut off. *)
Definition cut_off_schedule_world : world :=
  sample_world Monday (Some (lit "{")) (Some (lit "[5, 7]")) delivers_all.

Definition list_schedule_world : world :=
  sample_world Monday (Some (lit "[1, 2]")) (Some (lit "[5, 7]")) delivers_all.

Definition number_entry_world : world :=
  sample_world Monday
    (Some (lit "{" ++ quoted (lit "Понедельник") ++ lit ": 3}"))
    (Some (lit "[5, 7]")) delivers_all.

Definition blank_entry_world : world :=
  sample_world Monday
    (Some (lit "{" ++ quoted (lit "Понедельник") ++ lit ": "
           ++ quoted (lit " , ") ++ lit "}"))
    (Some (lit "[5, 7]")) delivers_all.

Definition sample_update_of (chat_id : Z) : Update :=
  {| effective_user := {| user_id := chat_id; full_name := lit "Nur" |};
     effective_chat_id := chat_id |}.

(** * Properties *)

(** ** The definitions at work *)

Example lit_dash : lit " — " = [32; 8212; 32]%N.
Proof. reflexivity. Qed.

Example split_commas :
  split (lit ",") (lit "a, b,,c") = [lit "a"; lit " b"; lit ""; lit "c"].
Proof. reflexivity. Qed.

Example split_overlapping :
  split (lit " - ") (lit "a - - b") = [lit "a"; lit "- b"].
Proof. reflexivity. Qed.

Example split_empty : split (lit ",") [] = [[]].
Proof. reflexivity. Qed.

Example strip_both_ends : strip (lit "  a b  ") = lit "a b".
Proof. reflexivity. Qed.

Example str_of_int_negative : str_of_int (-1001234) = lit "-1001234".
Proof. reflexivity. Qed.

Example loads_ints :
  MiniJson.loads (lit "[1, -20, 3]") = Some (PList [PInt 1; PInt (-20); PInt 3]).
Proof. vm_compute. reflexivity. Qed.

Example loads_dumps_mixed :
  let v := PList [PInt 1; PInt (-20); PNone; PStr (lit "aЖ")] in
  MiniJson.loads (MiniJson.dumps v) = Some v.
Proof. vm_compute. reflexivity. Qed.

Example loads_malformed : MiniJson.loads (lit "[1, 2") = None.
Proof. vm_compute. reflexivity. Qed.

(** ** Strings *)

Section StringFacts.
Implicit Types (s p sep a b : pystr) (c : N).

Lemma startswith_app p r : startswith p (p ++ r) = true.
Proof.
  induction p as [|x p IH]; simpl; [done|].
  by rewrite N.eqb_refl, IH.
Qed.

Lemma startswith_drop p s :
  startswith p s = true -> s = p ++ drop (length p) s.
Proof.
  revert s. induction p as [|x p IH]; intros [|y s]; simpl; try done.
  intros [Hxy Hp]%andb_prop. apply N.eqb_eq in Hxy as ->.
  f_equal. by apply IH.
Qed.

Lemma startswith_weaken p s t :
  startswith p s = true -> startswith p (s ++ t) = true.
Proof.
  intros Hp. rewrite (startswith_drop _ _ Hp), <- (assoc_L (++)).
  apply startswith_app.
Qed.

Lemma find_sep_eq sep s :
  find_sep sep s =
  if startswith sep s then Some ([], drop (length sep) s)
  else
    match s with
    | [] => None
    | c :: s' =>
      match find_sep sep s' with
      | Some (a, b) => Some (c :: a, b)
      | None => None
      end
    end.
Proof. by destruct s. Qed.

Lemma contains_eq sub s :
  contains sub s =
  startswith sub s || match s with [] => false | _ :: s' => contains sub s' end.
Proof. by destruct s. Qed.

Lemma find_sep_contains sep s :
  contains sep s = bool_decide (is_Some (find_sep sep s)).
Proof.
  assert (Hnone : bool_decide (is_Some (@None (pystr * pystr))) = false).
  { apply bool_decide_eq_false_2. by intros [? ?]. }
  assert (Hsome : forall x : pystr * pystr, bool_decide (is_Some (Some x)) = true).
  { intros x. apply bool_decide_eq_true_2. eauto. }
  induction s as [|c s IH]; rewrite contains_eq, find_sep_eq.
  - destruct (startswith sep []); by rewrite ?Hsome, ?Hnone.
  - destruct (startswith sep (c :: s)); [by rewrite Hsome|].
    rewrite IH. destruct (find_sep sep s) as [[a b]|];
      by rewrite ?Hsome, ?Hnone.
Qed.

Lemma find_sep_Some sep s a b :
  find_sep sep s = Some (a, b) -> s = a ++ sep ++ b.
Proof.
  revert a. induction s as [|c s IH]; intros a; rewrite find_sep_eq.
  - destruct (startswith sep []) eqn:Hp; [|done].
    intros [= <- <-]. by apply startswith_drop in Hp.
  - destruct (startswith sep (c :: s)) eqn:Hp.
    + intros [= <- <-]. by apply startswith_drop in Hp.
    + destruct (find_sep sep s) as [[a' b']|]; [|done].
      intros [= <- <-]. simpl. f_equal. by apply IH.
Qed.

Lemma find_sep_before sep s a b :
  sep <> [] -> find_sep sep s = Some (a, b) -> contains sep a = false.
Proof.
  intros Hsep. revert a. induction s as [|c s IH]; intros a; rewrite find_sep_eq.
  - destruct (startswith sep []); [|done]. intros [= <- <-].
    by destruct sep.
  - destruct (startswith sep (c :: s)) eqn:Hp.
    + intros [= <- <-]. by destruct sep.
    + destruct (find_sep sep s) as [[a' b']|] eqn:Hf; [|done].
      intros [= <- <-]. rewrite contains_eq, (IH a') by done.
      rewrite orb_false_r. destruct (startswith sep (c :: a')) eqn:Hq; [|done].
      apply find_sep_Some in Hf as ->.
      apply (startswith_weaken _ _ (sep ++ b')) in Hq. simpl in Hq. congruence.
Qed.

Lemma find_sep_shorter sep s a b :
  sep <> [] -> find_sep sep s = Some (a, b) -> (length b < length s)%nat.
Proof.
  intros Hsep ->%find_sep_Some. rewrite !length_app.
  destruct sep; [done|]. simpl. lia.
Qed.

Lemma split_steps_enough sep n m s :
  sep <> [] -> (length s <= n)%nat -> (length s <= m)%nat ->
  split_steps n sep s = split_steps m sep s.
Proof.
  intros Hsep. revert m s. induction n as [|n IH]; intros m s Hn Hm.
  - destruct s; [|simpl in Hn; lia].
    destruct m; simpl; destruct sep; try done.
  - destruct m as [|m].
    + destruct s; [|simpl in Hm; lia]. simpl. by destruct sep.
    + simpl. destruct (find_sep sep s) as [[a b]|] eqn:Hf; [|done].
      pose proof (find_sep_shorter _ _ _ _ Hsep Hf).
      f_equal. apply IH; lia.
Qed.

Lemma split_unfold sep s :
  sep <> [] ->
  split sep s =
  match find_sep sep s with
  | None => [s]
  | Some (a, b) => a :: split sep b
  end.
Proof.
  intros Hsep. unfold split.
  destruct (find_sep sep s) as [[a b]|] eqn:Hf.
  - pose proof (find_sep_shorter _ _ _ _ Hsep Hf).
    destruct (length s) as [|n] eqn:Hlen; [lia|].
    simpl. rewrite Hf. f_equal. apply split_steps_enough; [done|lia|lia].
  - destruct (length s); simpl; by rewrite Hf.
Qed.

Lemma count_steps_enough sep n m s :
  sep <> [] -> (length s <= n)%nat -> (length s <= m)%nat ->
  count_steps n sep s = count_steps m sep s.
Proof.
  intros Hsep. revert m s. induction n as [|n IH]; intros m s Hn Hm.
  - destruct s; [|simpl in Hn; lia].
    destruct m; simpl; destruct sep; try done.
  - destruct m as [|m].
    + destruct s; [|simpl in Hm; lia]. simpl. by destruct sep.
    + simpl. destruct (find_sep sep s) as [[a b]|] eqn:Hf; [|done].
      pose proof (find_sep_shorter _ _ _ _ Hsep Hf).
      f_equal. apply IH; lia.
Qed.

Lemma count_unfold sep s :
  sep <> [] ->
  count sep s =
  match find_sep sep s with
  | None => O
  | Some (_, b) => S (count sep b)
  end.
Proof.
  intros Hsep. unfold count.
  destruct (find_sep sep s) as [[a b]|] eqn:Hf.
  - pose proof (find_sep_shorter _ _ _ _ Hsep Hf).
    destruct (length s) as [|n] eqn:Hlen; [lia|].
    simpl. rewrite Hf. f_equal. apply count_steps_enough; [done|lia|lia].
  - destruct (length s); simpl; by rewrite Hf.
Qed.

Lemma length_split sep s : length (split sep s) = S (count sep s).
Proof.
  unfold split, count. generalize (length s) as n. intros n. revert s.
  induction n as [|n IH]; intros s; simpl;
    destruct (find_sep sep s) as [[a b]|]; simpl; auto.
Qed.

Lemma count_zero_contains sep s :
  sep <> [] -> count sep s = O <-> contains sep s = false.
Proof.
  intros Hsep. rewrite count_unfold, find_sep_contains by done.
  destruct (find_sep sep s) as [[a b]|].
  - rewrite bool_decide_eq_true_2 by eauto. done.
  - rewrite bool_decide_eq_false_2; [done|]. by intros [? ?].
Qed.

(** With exactly one occurrence of [sep], [split] cuts [s] at it. *)
Lemma split_one sep s :
  sep <> [] -> count sep s = 1%nat ->
  exists a b, find_sep sep s = Some (a, b) /\ split sep s = [a; b]
              /\ contains sep a = false /\ contains sep b = false.
Proof.
  intros Hsep Hc. rewrite count_unfold in Hc by done.
  rewrite split_unfold by done.
  destruct (find_sep sep s) as [[a b]|] eqn:Hf; [|done].
  injection Hc as Hc. exists a, b.
  pose proof (proj1 (count_zero_contains sep b Hsep) Hc) as Hb.
  split; [done|]. split; [|split; [|done]].
  - rewrite split_unfold by done. rewrite find_sep_contains in Hb.
    destruct (find_sep sep b); [|done].
    apply bool_decide_eq_false in Hb. destruct Hb. eauto.
  - by eapply find_sep_before.
Qed.

(** The pieces of [split] and the result of [strip] hold characters of the
    text they come from. *)
Lemma split_steps_elem sep n s p c :
  p ∈ split_steps n sep s -> c ∈ p -> c ∈ s.
Proof.
  revert s. induction n as [|n IH]; intros s; simpl;
    destruct (find_sep sep s) as [[a b]|] eqn:Hf;
    rewrite ?list_elem_of_singleton; try (by intros ->).
  intros [->|Hp]%elem_of_cons Hc; apply find_sep_Some in Hf as ->;
    rewrite !elem_of_app; eauto.
Qed.

Lemma split_elem sep s p c : p ∈ split sep s -> c ∈ p -> c ∈ s.
Proof. apply split_steps_elem. Qed.

Lemma lstrip_elem s c : c ∈ lstrip s -> c ∈ s.
Proof.
  induction s as [|x s IH]; simpl; [done|].
  destruct (isspace x); [|done]. intros ?%IH. by apply elem_of_cons; right.
Qed.

Lemma strip_elem s c : c ∈ strip s -> c ∈ s.
Proof.
  unfold strip, rstrip. rewrite elem_of_reverse.
  intros Hc%lstrip_elem. apply lstrip_elem. by apply elem_of_reverse.
Qed.

(** [lines] undoes the concatenation of lines that each end with their
    only line feed. *)
Lemma lines_from_line cur a rest :
  LF ∉ a ->
  lines_from cur (a ++ LF :: rest) = (reverse cur ++ a) :: lines rest.
Proof.
  revert cur. induction a as [|x a IH]; intros cur Ha; simpl.
  - by rewrite app_nil_r.
  - apply not_elem_of_cons in Ha as [Hx Ha].
    destruct (N.eqb_spec x LF) as [->|_]; [done|].
    rewrite IH by done. by rewrite reverse_cons, <- (assoc_L (++)).
Qed.

Lemma lines_concat (chunks : list pystr) :
  Forall (fun ch => exists t, ch = t ++ [LF] /\ LF ∉ t) chunks ->
  (fun l => l ++ [LF]) <$> lines (concat chunks) = chunks.
Proof.
  induction 1 as [|ch chunks (t & -> & Ht) _ IH]; [done|].
  cbn [concat]. unfold lines at 1. rewrite <- (assoc_L (++)).
  change ([LF] ++ concat chunks) with (LF :: concat chunks).
  rewrite lines_from_line by done. by rewrite fmap_cons, IH.
Qed.

End StringFacts.

(** ** The message formatter *)

Section FormatterFacts.
Context `{rt : Runtime}.
Implicit Types (w : world) (ru text message entry : pystr).

Lemma add_entry_line message entry :
  add_entry message entry = message ++ entry_line entry.
Proof.
  unfold entry_line, add_entry.
  destruct (contains _ entry); [|done].
  by destruct (length _ =? 2)%nat.
Qed.

Lemma fold_add_entry entries message :
  fold_left add_entry entries message
  = message ++ concat (entry_line <$> entries).
Proof.
  revert message. induction entries as [|e es IH]; intros message; simpl.
  - by rewrite app_nil_r.
  - by rewrite IH, add_entry_line, <- (assoc_L (++)).
Qed.

(** The values of [DAYS_MAPPING]: non-empty and on one line. *)
Lemma days_mapping_value en ru :
  DAYS_MAPPING !! en = Some ru -> ru <> [] /\ LF ∉ ru.
Proof.
  intros Hru%elem_of_list_to_map_2.
  repeat (apply elem_of_cons in Hru as [[= -> ->]|Hru];
          [split; [done|]; apply (bool_decide_unpack _); vm_compute; exact I|]).
  by apply elem_of_nil in Hru.
Qed.

Lemma days_mapping_total (d : weekday) :
  is_Some (DAYS_MAPPING !! strftime_A d).
Proof. destruct d; vm_compute; eauto. Qed.

(** The formatter past the weekday lookup. *)
Lemma formatter_known_day w ru :
  DAYS_MAPPING !! strftime_A (today_is w) = Some ru ->
  get_schedule_message_for_today w =
  (schedule_data <- load_schedule ;;
   schedule_text <- get_method schedule_data ru ;;
   if negb (truthy schedule_text) then ret (no_classes_message ru)
   else
     pieces <- split_method schedule_text (lit ",") ;;
     ret (fold_left add_entry (strip <$> pieces)
            (lit "Сегодня " ++ ru ++ lit ":" ++ [LF]))) w.
Proof.
  intros Hru. pose proof (days_mapping_value _ _ Hru) as [Hne _].
  unfold get_schedule_message_for_today, bind at 1, datetime_now.
  cbv beta iota zeta. rewrite Hru. by destruct ru.
Qed.

Lemma load_schedule_parsed w ftext v :
  files w !! SCHEDULE_FILE = Some ftext ->
  json_loads ftext = Some v ->
  load_schedule w = (Ok v, w).
Proof.
  intros Hf Hv. unfold load_schedule, bind, open_read, json_load.
  by rewrite Hf, Hv.
Qed.


Lemma formatter_text w ftext sched ru text :
  DAYS_MAPPING !! strftime_A (today_is w) = Some ru ->
  files w !! SCHEDULE_FILE = Some ftext ->
  json_loads ftext = Some (PDict sched) ->
  sched !! ru = Some (PStr text) ->
  text <> [] ->
  get_schedule_message_for_today w =
  (Ok ((lit "Сегодня " ++ ru ++ lit ":") ++ [LF]
       ++ concat (entry_line <$> (strip <$> split (lit ",") text))), w).
Proof.
  intros Hru Hf Hv Ht Hne.
  rewrite (formatter_known_day _ _ Hru). unfold bind.
  rewrite (load_schedule_parsed _ _ _ Hf Hv).
  unfold get_method, ret. rewrite Ht. cbn [default from_option id truthy].
  rewrite bool_decide_eq_false_2 by done. cbn [negb split_method].
  unfold ret. rewrite fold_add_entry.
  by rewrite <- !(assoc_L (++)).
Qed.

(** The line added for an entry ends with a line feed, its only one when
    the entry holds none. *)
Lemma entry_line_shape entry :
  exists t, entry_line entry = t ++ [LF] /\ (LF ∉ entry -> LF ∉ t).
Proof.
  unfold entry_line, add_entry.
  destruct (contains _ entry); [|by exists entry].
  destruct (length _ =? 2)%nat eqn:Hlen; [|by exists entry].
  destruct (split (lit " - ") entry) as [|a [|b [|? ?]]] eqn:Hs;
    try discriminate Hlen.
  cbn [nth app]. exists (b ++ lit " — " ++ a).
  split; [rewrite <- !(assoc_L (++)); reflexivity|].
  intros Hlf.
  assert (Hin : forall p c, p ∈ [a; b] -> c ∈ p -> c ∈ entry).
  { intros p c. rewrite <- Hs. apply split_elem. }
  rewrite !not_elem_of_app. split; [|split].
  - intros Hb. apply Hlf, (Hin b); [set_solver|exact Hb].
  - apply (bool_decide_unpack _). vm_compute. exact I.
  - intros Ha. apply Hlf, (Hin a); [set_solver|exact Ha].
Qed.

(** C3, as amended.  When the schedule of the day is a non-empty string,
    the message is the header line [Сегодня {russian day name}:] followed,
    for each comma-separated entry of that string in order, by the line the
    formatter renders from the entry with its surrounding whitespace
    stripped; each of these ends with a line feed, and when the string
    holds no line feed the lines of the message are exactly these: the
    header and one line per entry. *)
Theorem schedule_message_lines w ftext sched ru text :
  DAYS_MAPPING !! strftime_A (today_is w) = Some ru ->
  files w !! SCHEDULE_FILE = Some ftext ->
  json_loads ftext = Some (PDict sched) ->
  sched !! ru = Some (PStr text) ->
  text <> [] ->
  let header := lit "Сегодня " ++ ru ++ lit ":" in
  let entries := strip <$> split (lit ",") text in
  exists message,
    get_schedule_message_for_today w = (Ok message, w)
    /\ message = header ++ [LF] ++ concat (entry_line <$> entries)
    /\ Forall (fun line => exists t, line = t ++ [LF]) (entry_line <$> entries)
    /\ (LF ∉ text ->
        (fun l => l ++ [LF]) <$> lines message
        = (header ++ [LF]) :: (entry_line <$> entries)).
Proof.
  intros Hru Hf Hv Ht Hne header entries.
  exists (header ++ [LF] ++ concat (entry_line <$> entries)).
  split; [exact (formatter_text _ _ _ _ _ Hru Hf Hv Ht Hne)|].
  split; [reflexivity|]. split.
  - apply Forall_fmap, Forall_forall. intros e _.
    destruct (entry_line_shape e) as (t & Ht' & _). by exists t.
  - intros Hlf. rewrite (assoc_L (++) header).
    change ((header ++ [LF]) ++ concat (entry_line <$> entries))
      with (concat ((header ++ [LF]) :: (entry_line <$> entries))).
    apply lines_concat. constructor.
    + exists header. split; [reflexivity|]. unfold header.
      destruct (days_mapping_value _ _ Hru) as [_ Hru_lf].
      rewrite !not_elem_of_app. split; [|split; [exact Hru_lf|]];
        apply (bool_decide_unpack _); vm_compute; exact I.
    + apply Forall_fmap, Forall_forall. intros e He.
      destruct (entry_line_shape e) as (t & Ht' & Hlf').
      exists t. split; [exact Ht'|]. apply Hlf'.
      unfold entries in He.
      apply list_elem_of_fmap in He as (p & -> & Hp).
      intros Hc%strip_elem. apply Hlf. by eapply split_elem.
Qed.

(** C7.  [DAYS_MAPPING] has a non-empty entry for the name of each of the
    seven weekdays, which are all the names the clock can produce; so the
    lookup succeeds and the formatter never returns the message
    [Error: Could not map day ...]. *)
Theorem weekday_always_mapped :
  (forall d : weekday,
      exists ru, DAYS_MAPPING !! strftime_A d = Some ru /\ ru <> [])
  /\ size DAYS_MAPPING = 7%nat
  /\ (forall w,
        (get_schedule_message_for_today w).1
        <> Ok (error_message (strftime_A (today_is w)))).
Proof.
  split; [|split].
  - intros d. destruct (days_mapping_total d) as [ru Hru].
    exists ru. split; [done|]. by apply (days_mapping_value _ _ Hru).
  - by vm_compute.
  - intros w. destruct (days_mapping_total (today_is w)) as [ru Hru].
    rewrite (formatter_known_day _ _ Hru). unfold bind.
    destruct (load_schedule w) as [[v|e] w1]; [|done].
    destruct (get_method v ru w1) as [[v'|e] w2]; [|done].
    assert (Hhead : forall rest, Ok (lit "Сегодня " ++ rest)
                    <> Ok (error_message (strftime_A (today_is w)))).
    { intros rest Heq.
      apply (f_equal (fun r => match r with Ok (c :: _) => c | _ => 0%N end))
        in Heq.
      vm_compute in Heq. discriminate Heq. }
    destruct (negb (truthy v')); [apply Hhead|].
    destruct (split_method v' (lit ",") w2) as [[ps|e] w3]; [|done].
    unfold ret. cbn [fst]. rewrite fold_add_entry, <- (assoc_L (++)).
    apply Hhead.
Qed.

(** The formatter changes nothing, and its result is a function of the
    weekday and of the schedule file. *)
Lemma formatter_reads w w' :
  today_is w = today_is w' ->
  files w !! SCHEDULE_FILE = files w' !! SCHEDULE_FILE ->
  (get_schedule_message_for_today w).1 = (get_schedule_message_for_today w').1
  /\ (get_schedule_message_for_today w).2 = w.
Proof.
  intros Hday Hfile.
  destruct (days_mapping_total (today_is w)) as [ru Hru].
  rewrite (formatter_known_day w ru Hru).
  rewrite Hday in Hru. rewrite (formatter_known_day w' ru Hru).
  unfold bind, load_schedule, bind, open_read. rewrite <- Hfile.
  destruct (files w !! SCHEDULE_FILE) as [ftext|]; [|done].
  unfold json_load. destruct (json_loads ftext) as [v|]; [|done].
  unfold ret. destruct v as [| | | | |d]; try (split; reflexivity).
  unfold get_method, ret. destruct (negb (truthy _)); [split; reflexivity|].
  destruct (default PNone (d !! ru)); split; reflexivity.
Qed.

Lemma formatter_run w :
  get_schedule_message_for_today w = ((get_schedule_message_for_today w).1, w).
Proof.
  destruct (formatter_reads w w eq_refl eq_refl) as [_ Hw].
  rewrite <- Hw at 3. by destruct (get_schedule_message_for_today w).
Qed.

(** C9.  When the schedule file holds a mapping that has no entry for the
    Russian name of today's weekday, or an empty string there, the
    formatter returns [Сегодня {russian day name}:] and, on the next line,
    [Нет занятий.] instead of failing.  It changes nothing, and of the
    stored state it reads the schedule file only: two worlds with the same
    weekday and the same schedule file get the same message. *)
Theorem no_classes_fallback :
  (forall w ftext sched ru,
      DAYS_MAPPING !! strftime_A (today_is w) = Some ru ->
      files w !! SCHEDULE_FILE = Some ftext ->
      json_loads ftext = Some (PDict sched) ->
      sched !! ru = None \/ sched !! ru = Some (PStr []) ->
      get_schedule_message_for_today w
      = (Ok (lit "Сегодня " ++ ru ++ lit ":" ++ [LF] ++ lit "Нет занятий."), w))
  /\ (forall w w',
        today_is w = today_is w' ->
        files w !! SCHEDULE_FILE = files w' !! SCHEDULE_FILE ->
        (get_schedule_message_for_today w).1
        = (get_schedule_message_for_today w').1
        /\ (get_schedule_message_for_today w).2 = w).
Proof.
  split.
  - intros w ftext sched ru Hru Hf Hv Ht.
    rewrite (formatter_known_day _ _ Hru). unfold bind.
    rewrite (load_schedule_parsed _ _ _ Hf Hv).
    unfold get_method, ret. by destruct Ht as [-> | ->].
  - apply formatter_reads.
Qed.

(** C10.  [add_entry] is the turn of the formatter's loop for one entry.
    Occurrences of the separator are counted as [str.count] does, left to
    right and without overlap.  An entry with exactly one occurrence of
    [ - ] is [name - time], cut at that occurrence into parts that hold no
    separator, and its line is [time — name]; an entry with no occurrence,
    or with two or more, is added as a line as it is. *)
Theorem entry_swapped_or_verbatim entry :
  let sep := lit " - " in
  (count sep entry = 1%nat ->
   exists name time,
     find_sep sep entry = Some (name, time)
     /\ entry = name ++ sep ++ time
     /\ contains sep name = false /\ contains sep time = false
     /\ forall message,
         add_entry message entry
         = message ++ time ++ lit " — " ++ name ++ [LF])
  /\ (count sep entry <> 1%nat ->
      forall message, add_entry message entry = message ++ entry ++ [LF]).
Proof.
  intros sep. assert (Hsep : sep <> []) by done. split.
  - intros Hc.
    destruct (split_one sep entry Hsep Hc) as (a & b & Hf & Hs & Ha & Hb).
    exists a, b. split; [done|]. split; [by apply find_sep_Some|].
    split; [done|]. split; [done|].
    intros message. unfold add_entry. fold sep. rewrite Hs.
    assert (contains sep entry = true) as ->; [|done].
    apply not_false_iff_true. intros Hn%count_zero_contains; [|done].
    congruence.
  - intros Hc message. unfold add_entry. fold sep.
    destruct (contains sep entry); [|done].
    rewrite length_split.
    destruct (S (count sep entry) =? 2)%nat eqn:Hl; [|done].
    apply Nat.eqb_eq in Hl. lia.
Qed.

End FormatterFacts.

(** On Monday, with the schedule
    [Math - 10:00, PE ,Art - room 5 - 12:00]: four lines. *)
Lemma schedule_message_lines_witness :
  exists message,
    get_schedule_message_for_today (rt := MiniJson.runtime) monday_world
    = (Ok message, monday_world)
    /\ (fun l => l ++ [LF]) <$> lines message
       = (fun l => l ++ [LF]) <$>
         [lit "Сегодня Понедельник:"; lit "10:00 — Math"; lit "PE";
          lit "Art - room 5 - 12:00"].
Proof.
  destruct (schedule_message_lines (rt := MiniJson.runtime) monday_world
              monday_schedule
              {[ lit "Понедельник" := PStr (lit "Math - 10:00, PE ,Art - room 5 - 12:00") ]}
              (lit "Понедельник") (lit "Math - 10:00, PE ,Art - room 5 - 12:00"))
    as (message & Hrun & _ & _ & Hlines);
    [vm_compute; reflexivity ..|discriminate|].
  exists message. split; [exact Hrun|]. rewrite Hlines.
  - vm_compute. reflexivity.
  - apply (bool_decide_unpack _). vm_compute. exact I.
Defined.

(** C3, counterexample.  The schedule of Monday is the one entry
    [Math], line feed, [PE]: the message has two lines after the header,
    not one. *)
Lemma one_line_per_entry_fails :
  one_line_per_entry (rt := MiniJson.runtime) monday_two_lines_world <-> False.
Proof.
  split; [|done]. intros Hclaim.
  destruct (Hclaim monday_two_lines
              {[ lit "Понедельник" := PStr [77; 97; 116; 104; 10; 80; 69]%N ]}
              (lit "Понедельник") [77; 97; 116; 104; 10; 80; 69]%N)
    as (message & Hrun & Hlines);
    [vm_compute; reflexivity ..|discriminate|].
  vm_compute in Hrun. injection Hrun as <-.
  vm_compute in Hlines. discriminate Hlines.
Qed.

(** On Monday, with an empty string for [Понедельник]. *)
Lemma no_classes_fallback_witness :
  get_schedule_message_for_today (rt := MiniJson.runtime) monday_empty_world
  = (Ok (lit "Сегодня Понедельник:" ++ [LF] ++ lit "Нет занятий."),
     monday_empty_world).
Proof.
  rewrite (proj1 (no_classes_fallback (rt := MiniJson.runtime))
             monday_empty_world monday_empty
             {[ lit "Вторник" := PStr (lit "Math - 10:00");
                lit "Понедельник" := PStr [] ]}
             (lit "Понедельник"));
    [|vm_compute; reflexivity ..|right; vm_compute; reflexivity].
  vm_compute. reflexivity.
Defined.

(** [Math - 10:00] is swapped, [Art - room 5 - 12:00] and [PE] are not. *)
Lemma entry_swapped_or_verbatim_witness :
  add_entry [] (lit "Math - 10:00") = lit "10:00 — Math" ++ [LF]
  /\ add_entry [] (lit "Art - room 5 - 12:00")
     = lit "Art - room 5 - 12:00" ++ [LF]
  /\ add_entry [] (lit "PE") = lit "PE" ++ [LF].
Proof.
  split; [|split].
  - destruct (proj1 (entry_swapped_or_verbatim (lit "Math - 10:00")))
      as (name & time & Hfind & _ & _ & _ & Hline); [vm_compute; reflexivity|].
    rewrite Hline. vm_compute in Hfind. injection Hfind as <- <-.
    vm_compute. reflexivity.
  - apply (proj2 (entry_swapped_or_verbatim (lit "Art - room 5 - 12:00"))).
    vm_compute. discriminate.
  - apply (proj2 (entry_swapped_or_verbatim (lit "PE"))).
    vm_compute. discriminate.
Defined.

(** ** The subscriber store *)

Section StoreFacts.
Context `{rt : Runtime}.
Implicit Types (w : world) (S : gset hashable) (c : Z).

Lemma load_subscribers_missing w :
  files w !! SUBSCRIBERS_FILE = None -> load_subscribers w = (Ok ∅, w).
Proof.
  intros Hf. unfold load_subscribers, bind, os_path_exists. rewrite Hf.
  rewrite bool_decide_eq_false_2; [done|]. by intros [? ?].
Qed.

Lemma load_subscribers_text w text :
  files w !! SUBSCRIBERS_FILE = Some text ->
  load_subscribers w =
  (match json_loads text with
   | Some data => py_set data
   | None =>
     if is_JSONDecodeError (json_error text) then Ok ∅
     else Raise (json_error text)
   end, w).
Proof.
  intros Hf.
  unfold load_subscribers, bind at 1, os_path_exists. rewrite Hf.
  rewrite bool_decide_eq_true_2 by eauto. cbn [negb].
  unfold bind at 1, open_read. rewrite Hf.
  unfold try_except, bind, json_load, lift, ret, raise.
  destruct (json_loads text) as [data|];
    [|by destruct (is_JSONDecodeError (json_error text))].
  destruct (py_set data) as [S|e] eqn:Hset; [done|].
  assert (is_JSONDecodeError e = false) as ->; [|done].
  destruct data as [| | | |l|]; cbn [py_set] in Hset;
    try (injection Hset as <-; reflexivity); try discriminate Hset.
  destruct (mapM hash_key l); [discriminate Hset|].
  injection Hset as <-. reflexivity.
Qed.

(** Loading reads the store and changes nothing. *)
Lemma load_subscribers_pure w : (load_subscribers w).2 = w.
Proof.
  destruct (files w !! SUBSCRIBERS_FILE) as [text|] eqn:Hf.
  - by rewrite (load_subscribers_text _ _ Hf).
  - by rewrite (load_subscribers_missing _ Hf).
Qed.

Lemma load_subscribers_run w :
  load_subscribers w = ((load_subscribers w).1, w).
Proof.
  rewrite <- (load_subscribers_pure w) at 3. by destruct (load_subscribers w).
Qed.

Lemma py_set_hvals (l : list hashable) :
  py_set (PList (hval <$> l)) = Ok (list_to_set l).
Proof.
  unfold py_set.
  assert (mapM hash_key (hval <$> l) = Some l) as ->; [|done].
  apply mapM_Some. induction l as [|h l IH]; constructor; [by destruct h|done].
Qed.

Lemma set_iter_set S : iter_each_once S -> list_to_set (set_iter S) = S.
Proof.
  unfold iter_each_once. intros Hperm. apply set_eq. intros x.
  rewrite elem_of_list_to_set, Hperm. apply elem_of_elements.
Qed.

(** C8.  When the subscribers file does not exist, and when [json.load]
    raises a [JSONDecodeError] on its text, [load_subscribers] returns the
    empty set: it does not raise, and it leaves everything as it was.
    When [json.load] raises an exception of another class on the text,
    [load_subscribers] raises that exception. *)
Theorem load_subscribers_bad_store w :
  (files w !! SUBSCRIBERS_FILE = None -> load_subscribers w = (Ok ∅, w))
  /\ (forall text,
        files w !! SUBSCRIBERS_FILE = Some text ->
        json_loads text = None ->
        exn_cls (json_error text) = JSONDecodeError ->
        load_subscribers w = (Ok ∅, w))
  /\ (forall text,
        files w !! SUBSCRIBERS_FILE = Some text ->
        json_loads text = None ->
        exn_cls (json_error text) <> JSONDecodeError ->
        load_subscribers w = (Raise (json_error text), w)).
Proof.
  split; [apply load_subscribers_missing|].
  split; intros text Hf Hbad Hcls;
    rewrite (load_subscribers_text _ _ Hf), Hbad; unfold is_JSONDecodeError.
  - by rewrite bool_decide_eq_true_2.
  - by rewrite bool_decide_eq_false_2.
Qed.

(** [save_subscriber] on a chat the store holds, and on a new one. *)
Lemma save_subscriber_known w c S :
  (load_subscribers w).1 = Ok S -> HInt c ∈ S ->
  save_subscriber c w = (Ok tt, w).
Proof.
  intros Hload Hin. unfold save_subscriber, bind.
  rewrite load_subscribers_run, Hload. by rewrite bool_decide_eq_true_2.
Qed.

Lemma save_subscriber_new w c S :
  (load_subscribers w).1 = Ok S -> HInt c ∉ S ->
  let text := json_dumps (PList (hval <$> set_iter (S ∪ {[HInt c]}))) in
  save_subscriber c w
  = (Ok tt,
     emit (EvWrite SUBSCRIBERS_FILE text)
       (set_files (<[SUBSCRIBERS_FILE := text]> (files w)) w)).
Proof.
  intros Hload Hnotin. unfold save_subscriber, bind.
  rewrite load_subscribers_run, Hload. by rewrite bool_decide_eq_false_2.
Qed.

(** A written store loads as the set it was written from. *)
Lemma load_written w e S :
  let data := PList (hval <$> set_iter S) in
  iter_each_once S ->
  json_loads (json_dumps data) = Some data ->
  load_subscribers
    (emit e (set_files (<[SUBSCRIBERS_FILE := json_dumps data]> (files w)) w))
  = (Ok S,
     emit e (set_files (<[SUBSCRIBERS_FILE := json_dumps data]> (files w)) w)).
Proof.
  intros data Hiter Hround.
  rewrite (load_subscribers_text _ (json_dumps data)).
  - rewrite Hround. unfold data. rewrite py_set_hvals.
    by rewrite (set_iter_set _ Hiter).
  - unfold emit, set_files. cbn [files]. apply lookup_insert_eq.
Qed.

Lemma union_known S (x : hashable) : x ∈ S -> S ∪ {[x]} = S.
Proof.
  intros Hin. apply set_eq. intros y.
  rewrite elem_of_union, elem_of_singleton.
  split; [intros [Hy| ->]; [exact Hy|exact Hin]|by left].
Qed.

(** C2.  Let the store load as the set [S].  After [save_subscriber c]
    it loads as [S ∪ {c}].  When [c] was in [S] nothing is written and the
    world, the file included, is what it was; otherwise the file is
    written once, with a list that holds each element of [S ∪ {c}] once.
    Saving [c] again writes nothing.  The element order of the written list
    is the iteration order of the set, and the written text is assumed to
    read back as the list it was written from. *)
Theorem save_subscriber_adds w c S :
  (load_subscribers w).1 = Ok S ->
  let S' := S ∪ {[HInt c]} in
  let data := PList (hval <$> set_iter S') in
  (HInt c ∉ S ->
   iter_each_once S' /\ json_loads (json_dumps data) = Some data) ->
  exists w',
    save_subscriber c w = (Ok tt, w')
    /\ (load_subscribers w').1 = Ok S'
    /\ (HInt c ∈ S -> w' = w /\ S' = S)
    /\ (HInt c ∉ S ->
        w' = emit (EvWrite SUBSCRIBERS_FILE (json_dumps data))
               (set_files (<[SUBSCRIBERS_FILE := json_dumps data]> (files w)) w)
        /\ NoDup (set_iter S')
        /\ forall x, x ∈ set_iter S' <-> x ∈ S')
    /\ save_subscriber c w' = (Ok tt, w').
Proof.
  intros Hload S' data Hnew.
  destruct (decide (HInt c ∈ S)) as [Hin|Hnotin].
  - assert (HS : S' = S) by exact (union_known S _ Hin).
    pose proof (save_subscriber_known w c S Hload Hin) as Hsave.
    exists w. rewrite HS.
    split; [exact Hsave|]. split; [exact Hload|]. split; [by intros _|].
    split; [by intros Hn; destruct (Hn Hin)|exact Hsave].
  - destruct (Hnew Hnotin) as [Hiter Hround].
    pose proof (save_subscriber_new w c S Hload Hnotin) as Hsave.
    pose proof (load_written w (EvWrite SUBSCRIBERS_FILE (json_dumps data))
                  S' Hiter Hround) as Hrun'.
    cbv zeta in Hsave, Hrun'. fold S' data in Hsave, Hrun'.
    eexists. split; [exact Hsave|]. split; [by rewrite Hrun'|].
    split; [by intros Hin; destruct (Hnotin Hin)|]. split.
    + intros _. split; [reflexivity|]. unfold iter_each_once in Hiter. split.
      * rewrite Hiter. apply NoDup_elements.
      * intros x. rewrite Hiter. apply elem_of_elements.
    + apply (save_subscriber_known _ c S'); [by rewrite Hrun'|].
      apply elem_of_union_r, elem_of_singleton. reflexivity.
Qed.

(** Every store the program has persisted loads as a set, when sets
    iterate over their elements and written lists read back. *)
Lemma persisted_loads w :
  (forall S, iter_each_once S) ->
  (forall l : list hashable,
      json_loads (json_dumps (PList (hval <$> l))) = Some (PList (hval <$> l))) ->
  persisted w -> exists S, (load_subscribers w).1 = Ok S.
Proof.
  intros Hiter Hround. induction 1 as [w Hnone|w c w' _ [S HS] Hsave].
  - exists ∅. by rewrite (load_subscribers_missing _ Hnone).
  - destruct (decide (HInt c ∈ S)) as [Hin|Hnotin].
    + rewrite (save_subscriber_known w c S HS Hin) in Hsave.
      injection Hsave as <-. by exists S.
    + rewrite (save_subscriber_new w c S HS Hnotin) in Hsave.
      injection Hsave as <-. exists (S ∪ {[HInt c]}).
      by rewrite (load_written w _ _ (Hiter _) (Hround _)).
Qed.

(** X1.  A subscribers file that holds JSON of the wrong shape, a value
    [set()] cannot be built from, makes [load_subscribers] raise
    [TypeError]: only [JSONDecodeError] is caught.  [save_subscriber] and
    [/start] raise it too, and [/start] sends no greeting. *)
Theorem load_subscribers_wrong_shape w text data e :
  files w !! SUBSCRIBERS_FILE = Some text ->
  json_loads text = Some data ->
  py_set data = Raise e ->
  exn_cls e = TypeError
  /\ load_subscribers w = (Raise e, w)
  /\ (forall chat_id, save_subscriber chat_id w = (Raise e, w))
  /\ (forall update, start update w = (Raise e, w)).
Proof.
  intros Hf Hdata Hset.
  assert (Hload : load_subscribers w = (Raise e, w)).
  { by rewrite (load_subscribers_text _ _ Hf), Hdata, Hset. }
  assert (Hsave : forall chat_id, save_subscriber chat_id w = (Raise e, w)).
  { intros chat_id. unfold save_subscriber, bind. by rewrite Hload. }
  split; [|split; [exact Hload|split; [exact Hsave|]]].
  - destruct data as [| | | |l|]; cbn [py_set] in Hset;
      try (injection Hset as <-; reflexivity); try discriminate Hset.
    destruct (mapM hash_key l); [discriminate Hset|].
    injection Hset as <-. reflexivity.
  - intros update. unfold start, bind. by rewrite Hsave.
Qed.

End StoreFacts.

(** The subscribers file of a sample world. *)
Lemma sample_subscribers_file d schedule text network :
  files (sample_world d schedule (Some text) network) !! lit "subscribers.json"
  = Some text.
Proof. destruct schedule; vm_compute; reflexivity. Qed.

(** The missing file, the malformed file [[5, 7], and the file that holds
    an integer of 5000 digits, on which the reader raises [ValueError]. *)
Lemma load_subscribers_bad_store_witness :
  load_subscribers (rt := MiniJson.runtime) monday_world
  = (Ok ∅, monday_world)
  /\ load_subscribers (rt := MiniJson.runtime) malformed_subscribers_world
     = (Ok ∅, malformed_subscribers_world)
  /\ exists e,
       exn_cls e = ValueError
       /\ load_subscribers (rt := MiniJson.runtime) long_number_store_world
          = (Raise e, long_number_store_world).
Proof.
  destruct (load_subscribers_bad_store (rt := MiniJson.runtime) monday_world)
    as (Hmissing & _ & _).
  destruct (load_subscribers_bad_store (rt := MiniJson.runtime)
              malformed_subscribers_world) as (_ & Hbad & _).
  destruct (load_subscribers_bad_store (rt := MiniJson.runtime)
              long_number_store_world) as (_ & _ & Hraise).
  split; [apply Hmissing; vm_compute; reflexivity|]. split.
  - apply (Hbad (lit "[5, 7")); vm_compute; reflexivity.
  - exists (json_error (Runtime := MiniJson.runtime) long_number_store).
    split; [vm_compute; reflexivity|].
    apply Hraise;
      [apply sample_subscribers_file|vm_compute; reflexivity
      |vm_compute; discriminate].
Defined.

(** C8, counterexample.  The subscribers file is 100000 opening brackets.
    It is no JSON, and the reader raises [RecursionError] on it, which
    [except json.JSONDecodeError] does not catch: [load_subscribers]
    raises, it does not return the empty set. *)
Lemma bad_store_loads_empty_fails :
  bad_store_loads_empty (rt := MiniJson.runtime) deep_store_world <-> False.
Proof.
  split; [|intros []]. intros Hclaim.
  assert (Hload : (load_subscribers (rt := MiniJson.runtime)
                     deep_store_world).1 = Ok ∅).
  { apply Hclaim. right. exists deep_store.
    split; [apply sample_subscribers_file|vm_compute; reflexivity]. }
  vm_compute in Hload. discriminate Hload.
Qed.

(** Chat 9 joins the store that holds [[5, 7]]. *)
Lemma save_subscriber_adds_witness :
  exists w',
    save_subscriber (rt := MiniJson.runtime) 9 two_subscribers_world = (Ok tt, w')
    /\ (load_subscribers (rt := MiniJson.runtime) w').1
       = Ok ({[HInt 5; HInt 7]} ∪ {[HInt 9]})
    /\ files w' !! lit "subscribers.json" = Some (lit "[7, 9, 5]")
    /\ save_subscriber (rt := MiniJson.runtime) 9 w' = (Ok tt, w').
Proof.
  destruct (save_subscriber_adds (rt := MiniJson.runtime)
              two_subscribers_world 9 {[HInt 5; HInt 7]})
    as (w' & Hsave & Hload & _ & Hnew & Hagain).
  - vm_compute. reflexivity.
  - intros _. split.
    + unfold iter_each_once. cbn [set_iter MiniJson.runtime]. reflexivity.
    + vm_compute. reflexivity.
  - exists w'. split; [exact Hsave|]. split; [exact Hload|].
    split; [|exact Hagain].
    destruct Hnew as [-> _].
    + apply (bool_decide_unpack _). vm_compute. exact I.
    + vm_compute. reflexivity.
Defined.

(** ** The daily job and the command handlers *)

Section JobFacts.
Context `{rt : Runtime}.
Implicit Types (w : world) (S : gset hashable) (message : pystr).

Lemma emit_all_nil w : emit_all [] w = w.
Proof. destruct w. unfold emit_all. cbn. by rewrite app_nil_r. Qed.

Lemma emit_all_app es1 es2 w :
  emit_all es2 (emit_all es1 w) = emit_all (es1 ++ es2) w.
Proof. unfold emit_all. cbn. by rewrite (assoc_L (++)). Qed.

Lemma job_turn_run message chat_id w :
  job_turn message chat_id w =
  match net w chat_id message with
  | Some e =>
    if is_Exception e
    then (Ok tt, emit_all (turn_events (net w) message chat_id) w)
    else (Raise e, emit_all [EvSend chat_id message] w)
  | None => (Ok tt, emit_all (turn_events (net w) message chat_id) w)
  end.
Proof.
  unfold job_turn, try_except, send_message, turn_events.
  destruct (net w chat_id message) as [e|]; [|done].
  destruct (is_Exception e); [|done].
  unfold logger_error, event_do, failure_log, emit, emit_all.
  cbn [trace today_is files net jobs]. by rewrite <- (assoc_L (++)).
Qed.

(** Every chat of the list has its attempt among the events of the
    turns. *)
Lemma turn_events_sent network message (l : list hashable) c :
  c ∈ l -> EvSend c message ∈ concat (turn_events network message <$> l).
Proof.
  induction l as [|x l IH]; [by intros ?%elem_of_nil|].
  rewrite fmap_cons. cbn [concat]. rewrite elem_of_app.
  intros [->|Hc]%elem_of_cons.
  - left. unfold turn_events. apply elem_of_cons. by left.
  - right. by apply IH.
Qed.

(** The loop when every raised exception is an [Exception]: all turns
    run. *)
Lemma job_loop_all message (l : list hashable) w :
  (forall c e, c ∈ l -> net w c message = Some e -> is_Exception e = true) ->
  for_each l (job_turn message) w
  = (Ok tt, emit_all (concat (turn_events (net w) message <$> l)) w).
Proof.
  revert w. induction l as [|c l IH]; intros w Hexn.
  - cbn. unfold ret. by rewrite emit_all_nil.
  - cbn [for_each]. unfold bind. rewrite job_turn_run.
    assert (Hok : match net w c message with
                  | Some e =>
                    if is_Exception e
                    then (Ok tt, emit_all (turn_events (net w) message c) w)
                    else (Raise e, emit_all [EvSend c message] w)
                  | None => (Ok tt, emit_all (turn_events (net w) message c) w)
                  end = (Ok tt, emit_all (turn_events (net w) message c) w)).
    { destruct (net w c message) as [e|] eqn:He; [|done].
      rewrite (Hexn c e); [reflexivity| |exact He].
      apply elem_of_cons. by left. }
    rewrite Hok. rewrite IH.
    + by rewrite emit_all_app.
    + intros c' e Hc'. apply Hexn. apply elem_of_cons. by right.
Qed.

(** The loop in general: whatever it sends carries [message]. *)
Lemma job_loop_text message (l : list hashable) w :
  exists r es,
    for_each l (job_turn message) w = (r, emit_all es w)
    /\ forall chat text, EvSend chat text ∈ es -> text = message.
Proof.
  revert w. induction l as [|c l IH]; intros w.
  - exists (Ok tt), []. split; [by rewrite emit_all_nil|]. by intros ? ? ?%elem_of_nil.
  - cbn [for_each]. unfold bind. rewrite job_turn_run.
    assert (Hturn : forall chat text,
               EvSend chat text ∈ turn_events (net w) message c -> text = message).
    { intros chat text. unfold turn_events.
      destruct (net w c message);
        intros [Heq|Hin]%elem_of_cons; try (by injection Heq);
        try (apply elem_of_cons in Hin as [Heq|Hin]; [discriminate Heq|]);
        by apply elem_of_nil in Hin. }
    assert (Hstop : forall e : exn, exists r es,
               (@Raise unit e, emit_all [EvSend c message] w) = (r, emit_all es w)
               /\ forall chat text, EvSend chat text ∈ es -> text = message).
    { intros e. exists (Raise e), [EvSend c message]. split; [done|].
      intros chat text [Heq|Hin]%elem_of_cons; [by injection Heq|].
      by apply elem_of_nil in Hin. }
    assert (Hgo : exists r es,
               for_each l (job_turn message)
                 (emit_all (turn_events (net w) message c) w) = (r, emit_all es w)
               /\ forall chat text, EvSend chat text ∈ es -> text = message).
    { destruct (IH (emit_all (turn_events (net w) message c) w))
        as (r & es & -> & Hes).
      exists r, (turn_events (net w) message c ++ es).
      split; [by rewrite emit_all_app|].
      intros chat text [?|?]%elem_of_app; eauto. }
    destruct (net w c message) as [e|]; [|done].
    destruct (is_Exception e); [done|apply Hstop].
Qed.

Lemma send_schedule_job_run w :
  send_schedule_job w =
  match (get_schedule_message_for_today w).1 with
  | Ok message =>
    match (load_subscribers w).1 with
    | Ok subscribers => for_each (set_iter subscribers) (job_turn message) w
    | Raise e => (Raise e, w)
    end
  | Raise e => (Raise e, w)
  end.
Proof.
  unfold send_schedule_job, bind at 1. rewrite formatter_run.
  destruct (get_schedule_message_for_today w).1 as [message|e]; [|done].
  unfold bind. rewrite load_subscribers_run.
  by destruct (load_subscribers w).1.
Qed.

(** C1.  Let the job have its message and its subscribers, and let every
    exception a send raises be an [Exception] (an error).  Then the job
    attempts every subscriber in iteration order and logs each failure
    right after the failed attempt, and it ends normally: for a subscriber
    [c] whose send raises [e], the error is logged as
    [Failed to send message to c: e], and every subscriber after [c] is
    still attempted. *)
Theorem broadcast_survives_failures w message S :
  (get_schedule_message_for_today w).1 = Ok message ->
  (load_subscribers w).1 = Ok S ->
  (forall c e,
      c ∈ set_iter S -> net w c message = Some e -> is_Exception e = true) ->
  exists w',
    send_schedule_job w = (Ok tt, w')
    /\ trace w' = trace w ++ concat (turn_events (net w) message <$> set_iter S)
    /\ forall before c after e,
        set_iter S = before ++ c :: after ->
        net w c message = Some e ->
        trace w'
        = trace w ++ concat (turn_events (net w) message <$> before)
          ++ [EvSend c message;
              EvLogError (lit "Failed to send message to " ++ py_str c
                          ++ lit ": " ++ exn_msg e)]
          ++ concat (turn_events (net w) message <$> after)
        /\ Forall (fun c' => EvSend c' message
                             ∈ concat (turn_events (net w) message <$> after))
             after.
Proof.
  intros Hmsg Hload Hexn.
  eexists. split; [|split].
  - rewrite send_schedule_job_run, Hmsg, Hload. by apply job_loop_all.
  - done.
  - intros before c after e Hsplit He. cbn [emit_all trace]. split.
    + rewrite Hsplit, fmap_app, concat_app, fmap_cons. cbn [concat].
      unfold turn_events at 2. rewrite He. unfold failure_log. reflexivity.
    + apply Forall_forall. intros c' Hc'. by apply turn_events_sent.
Qed.

(** C5.  Take the weekday and the schedule file as fixed, whatever else
    differs between the world [w1] of the command and the world [w2] of
    the job.  When the formatter returns a message, [/today] replies with
    that message and every message the job sends carries that same text
    (to each subscriber, when the subscribers load and every failure of a
    send is an error); when the formatter raises, both raise and nothing
    is sent. *)
Theorem on_demand_and_broadcast_same_text update w1 w2 :
  today_is w1 = today_is w2 ->
  files w1 !! SCHEDULE_FILE = files w2 !! SCHEDULE_FILE ->
  (get_schedule_message_for_today w1).1 = (get_schedule_message_for_today w2).1
  /\ match (get_schedule_message_for_today w1).1 with
     | Ok message =>
       today update w1
       = (Ok tt, emit (EvReplyText (effective_chat_id update) message) w1)
       /\ (exists r es,
             send_schedule_job w2 = (r, emit_all es w2)
             /\ forall chat text, EvSend chat text ∈ es -> text = message)
       /\ (forall S,
             (load_subscribers w2).1 = Ok S ->
             (forall c e, c ∈ set_iter S -> net w2 c message = Some e ->
                          is_Exception e = true) ->
             send_schedule_job w2
             = (Ok tt,
                emit_all (concat (turn_events (net w2) message <$> set_iter S))
                  w2))
     | Raise e =>
       today update w1 = (Raise e, w1) /\ send_schedule_job w2 = (Raise e, w2)
     end.
Proof.
  intros Hday Hfile.
  destruct (formatter_reads w1 w2 Hday Hfile) as [Hsame _].
  split; [done|].
  assert (Htoday : today update w1 =
            match (get_schedule_message_for_today w1).1 with
            | Ok message =>
              (Ok tt, emit (EvReplyText (effective_chat_id update) message) w1)
            | Raise e => (Raise e, w1)
            end).
  { unfold today, bind. rewrite formatter_run.
    by destruct (get_schedule_message_for_today w1).1. }
  rewrite Htoday, send_schedule_job_run, <- Hsame.
  destruct (get_schedule_message_for_today w1).1 as [message|e]; [|done].
  split; [done|]. split.
  - destruct (load_subscribers w2).1 as [S|e].
    + apply job_loop_text.
    + exists (Raise e), []. split; [by rewrite emit_all_nil|].
      by intros ? ? ?%elem_of_nil.
  - intros S -> Hexn. by apply job_loop_all.
Qed.

(** The loop when a send raises what [except Exception] does not catch:
    it stops there. *)
Lemma job_loop_stops message (before after : list hashable) c e w :
  (forall c' e', c' ∈ before -> net w c' message = Some e' ->
                 is_Exception e' = true) ->
  net w c message = Some e ->
  is_Exception e = false ->
  for_each (before ++ c :: after) (job_turn message) w
  = (Raise e,
     emit_all (concat (turn_events (net w) message <$> before)
               ++ [EvSend c message]) w).
Proof.
  revert w. induction before as [|b before IH]; intros w Hexn He Hne.
  - cbn [app for_each fmap list_fmap concat]. unfold bind.
    rewrite job_turn_run, He, Hne. reflexivity.
  - cbn [app for_each]. unfold bind. rewrite job_turn_run.
    assert (Hok : match net w b message with
                  | Some e0 =>
                    if is_Exception e0
                    then (Ok tt, emit_all (turn_events (net w) message b) w)
                    else (Raise e0, emit_all [EvSend b message] w)
                  | None => (Ok tt, emit_all (turn_events (net w) message b) w)
                  end = (Ok tt, emit_all (turn_events (net w) message b) w)).
    { destruct (net w b message) as [e0|] eqn:He0; [|done].
      rewrite (Hexn b e0); [reflexivity| |exact He0].
      apply elem_of_cons. by left. }
    rewrite Hok, IH.
    + rewrite emit_all_app, fmap_cons. cbn [concat net emit_all].
      by rewrite <- (assoc_L (++)).
    + intros c' e' Hc'. apply Hexn. apply elem_of_cons. by right.
    + exact He.
    + exact Hne.
Qed.

(** X2.  A send that raises what is no [Exception], a cancellation, ends
    the job: the exception leaves the loop, nothing is logged for it, and
    the subscribers after that one are not attempted. *)
Theorem broadcast_stops_on_cancellation w message S before c after e :
  (get_schedule_message_for_today w).1 = Ok message ->
  (load_subscribers w).1 = Ok S ->
  set_iter S = before ++ c :: after ->
  (forall c' e', c' ∈ before -> net w c' message = Some e' ->
                 is_Exception e' = true) ->
  net w c message = Some e ->
  is_Exception e = false ->
  send_schedule_job w
  = (Raise e,
     emit_all (concat (turn_events (net w) message <$> before)
               ++ [EvSend c message]) w).
Proof.
  intros Hmsg Hload Hsplit Hexn He Hne.
  rewrite send_schedule_job_run, Hmsg, Hload, Hsplit.
  by apply job_loop_stops.
Qed.

(** X3.  Without a schedule file the formatter raises
    [FileNotFoundError]; [/today] raises it and replies nothing, and the
    job raises it before it sends anything. *)
Theorem missing_schedule_file w update :
  files w !! SCHEDULE_FILE = None ->
  let e := {| exn_cls := FileNotFoundError; exn_msg := SCHEDULE_FILE |} in
  get_schedule_message_for_today w = (Raise e, w)
  /\ today update w = (Raise e, w)
  /\ send_schedule_job w = (Raise e, w).
Proof.
  intros Hf e.
  assert (Hmsg : get_schedule_message_for_today w = (Raise e, w)).
  { destruct (days_mapping_total (today_is w)) as [ru Hru].
    rewrite (formatter_known_day _ _ Hru).
    unfold bind, load_schedule, bind, open_read. by rewrite Hf. }
  split; [exact Hmsg|]. split.
  - unfold today, bind. by rewrite Hmsg.
  - rewrite send_schedule_job_run. by rewrite Hmsg.
Qed.

End JobFacts.

(** ** Commands and the timer *)

Section AppFacts.
Context `{rt : Runtime}.
Implicit Types (w : world) (S : gset hashable).

Lemma today_run update w :
  today update w =
  match (get_schedule_message_for_today w).1 with
  | Ok message =>
    (Ok tt, emit (EvReplyText (effective_chat_id update) message) w)
  | Raise e => (Raise e, w)
  end.
Proof.
  unfold today, bind. rewrite formatter_run.
  by destruct (get_schedule_message_for_today w).1.
Qed.

(** C4.  The application that [__main__] runs has exactly two command
    handlers, [start] and [today], so [/start] and [/today] are the
    commands it answers.  [/start] saves the chat of the update in the
    subscriber store, which then loads with that chat in it, and replies
    with the greeting: [Привет,], the mention of the user, and the
    sentences that announce the daily schedule at 08:00 Baku time and
    the command [/today]; [/today] replies with the message the formatter
    returns.  (The store is taken to load, and what [/start] writes to
    read back, as for [save_subscriber].) *)
Theorem two_commands TOKEN application :
  main TOKEN = RunPolling application ->
  (app_handlers application).*1 = [lit "start"; lit "today"]
  /\ (forall command,
        is_Some (handler_for (app_handlers application) command)
        <-> command = lit "start" \/ command = lit "today")
  /\ handler_for (app_handlers application) (lit "start") = Some start
  /\ handler_for (app_handlers application) (lit "today") = Some today
  /\ (forall update w S,
        (load_subscribers w).1 = Ok S ->
        let c := effective_chat_id update in
        let S' := S ∪ {[HInt c]} in
        let data := PList (hval <$> set_iter S') in
        (HInt c ∉ S ->
         iter_each_once S' /\ json_loads (json_dumps data) = Some data) ->
        exists w',
          save_subscriber c w = (Ok tt, w')
          /\ (load_subscribers w').1 = Ok S'
          /\ start update w
             = (Ok tt,
                emit
                  (EvReplyHtml c
                     (lit "Привет, " ++ mention_html (effective_user update)
                      ++ lit "! Я буду отправлять тебе расписание каждый день в 08:00 по Баку. Напиши /today чтобы узнать расписание на сегодня."))
                  w'))
  /\ (forall update w message,
        (get_schedule_message_for_today w).1 = Ok message ->
        today update w
        = (Ok tt, emit (EvReplyText (effective_chat_id update) message) w)).
Proof.
  intros Hmain.
  assert (Happ : app_handlers application
                 = [(lit "start", start); (lit "today", today)]).
  { unfold main in Hmain. destruct TOKEN as [[|? ?]|]; try discriminate Hmain.
    by injection Hmain as <-. }
  rewrite Happ. clear Hmain Happ.
  assert (Hne : lit "start" <> lit "today") by (vm_compute; discriminate).
  split; [reflexivity|]. split; [|split; [|split; [|split]]].
  - intros command. cbn [handler_for].
    destruct (decide (lit "start" = command)) as [<-|Hs].
    + rewrite bool_decide_eq_true_2 by reflexivity. split; [by left|eauto].
    + rewrite (bool_decide_eq_false_2 _ Hs).
      destruct (decide (lit "today" = command)) as [<-|Ht].
      * rewrite bool_decide_eq_true_2 by reflexivity. split; [by right|eauto].
      * rewrite (bool_decide_eq_false_2 _ Ht). split.
        -- by intros [? ?].
        -- intros [->| ->]; [by destruct Hs|by destruct Ht].
  - cbn [handler_for]. by rewrite bool_decide_eq_true_2.
  - cbn [handler_for]. rewrite (bool_decide_eq_false_2 _ Hne).
    by rewrite bool_decide_eq_true_2.
  - intros update w S Hload c S' data Hnew.
    assert (Hstart : forall w', save_subscriber c w = (Ok tt, w') ->
               start update w
               = (Ok tt,
                  emit
                    (EvReplyHtml c
                       (lit "Привет, " ++ mention_html (effective_user update)
                        ++ lit "! Я буду отправлять тебе расписание каждый день в 08:00 по Баку. Напиши /today чтобы узнать расписание на сегодня."))
                    w')).
    { intros w' Hsave. unfold start, bind. fold c. rewrite Hsave.
      unfold greeting. reflexivity. }
    destruct (decide (HInt c ∈ S)) as [Hin|Hnotin].
    + pose proof (save_subscriber_known w c S Hload Hin) as Hsave.
      exists w. split; [exact Hsave|]. split; [|by apply Hstart].
      unfold S'. by rewrite (union_known S _ Hin).
    + destruct (Hnew Hnotin) as [Hiter Hround].
      pose proof (save_subscriber_new w c S Hload Hnotin) as Hsave.
      pose proof (load_written w (EvWrite SUBSCRIBERS_FILE (json_dumps data))
                    S' Hiter Hround) as Hrun'.
      cbv zeta in Hsave, Hrun'. fold S' data in Hsave, Hrun'.
      eexists. split; [exact Hsave|]. split; [by rewrite Hrun'|].
      by apply Hstart.
  - intros update w message Hmsg. by rewrite today_run, Hmsg.
Qed.

End AppFacts.



(** ** The statements at the sample worlds *)

(** Chat 7 has blocked the bot: the failure is logged, and chats 9 and 5,
    which come after it, get the message. *)
Lemma broadcast_survives_failures_witness :
  exists w',
    send_schedule_job (rt := MiniJson.runtime) blocked_world = (Ok tt, w')
    /\ trace w'
       = [EvSend (HInt 7) monday_message;
          EvLogError
            (lit "Failed to send message to 7: Forbidden: bot was blocked by the user");
          EvSend (HInt 9) monday_message;
          EvSend (HInt 5) monday_message].
Proof.
  destruct (broadcast_survives_failures (rt := MiniJson.runtime)
              blocked_world monday_message {[HInt 5; HInt 7; HInt 9]})
    as (w' & Hjob & _ & Hfail).
  - vm_compute. reflexivity.
  - vm_compute. reflexivity.
  - intros c e _. unfold blocked_world, sample_world. cbn [net].
    unfold blocked_by_7. destruct (bool_decide (c = HInt 7)); [|discriminate].
    intros [= <-]. reflexivity.
  - exists w'. split; [exact Hjob|].
    destruct (Hfail [] (HInt 7) [HInt 9; HInt 5] blocked) as [Htrace _];
      [vm_compute; reflexivity ..|].
    rewrite Htrace. vm_compute. reflexivity.
Defined.

(** C1, counterexample.  The send to chat 7, the first of the iteration
    over the store [[5, 7, 9]], is cancelled.  [CancelledError] is no
    [Exception], so [except Exception] does not catch it: the job ends
    with it, nothing is logged, and chats 9 and 5 are not attempted. *)
Lemma no_failure_aborts_fails :
  no_failure_aborts (rt := MiniJson.runtime) cancelled_world <-> False.
Proof.
  split; [|intros []]. intros Hclaim.
  destruct (Hclaim monday_message {[HInt 5; HInt 7; HInt 9]}
              [] (HInt 7) [HInt 9; HInt 5] cancelled)
    as (w' & Hjob & _); [vm_compute; reflexivity ..|].
  vm_compute in Hjob. discriminate Hjob.
Qed.

(** [/today] on Monday and the job on the same Monday, with the same
    schedule file: one text. *)
Lemma on_demand_and_broadcast_same_text_witness :
  today (rt := MiniJson.runtime) sample_update monday_world
  = (Ok tt, emit (EvReplyText 9 monday_message) monday_world)
  /\ exists r es,
       send_schedule_job (rt := MiniJson.runtime) blocked_world
       = (r, emit_all es blocked_world)
       /\ forall chat text, EvSend chat text ∈ es -> text = monday_message.
Proof.
  assert (Hmsg : (get_schedule_message_for_today (rt := MiniJson.runtime)
                    monday_world).1 = Ok monday_message)
    by (vm_compute; reflexivity).
  destruct (on_demand_and_broadcast_same_text (rt := MiniJson.runtime)
              sample_update monday_world blocked_world)
    as [_ Hsame].
  - reflexivity.
  - vm_compute. reflexivity.
  - rewrite Hmsg in Hsame. destruct Hsame as (Htoday & Hjob & _).
    split; [exact Htoday|exact Hjob].
Defined.

(** With a token, [/start] from chat 9 on the store [[5, 7]], and
    [/today] on Monday. *)
Lemma two_commands_witness :
  (exists w',
      start (rt := MiniJson.runtime) sample_update two_subscribers_world
      = (Ok tt,
         emit
           (EvReplyHtml 9
              (lit "Привет, <a href=" ++ quoted (lit "tg://user?id=9")
               ++ lit ">Nur</a>! Я буду отправлять тебе расписание каждый день в 08:00 по Баку. Напиши /today чтобы узнать расписание на сегодня."))
           w')
      /\ (load_subscribers (rt := MiniJson.runtime) w').1
         = Ok ({[HInt 5; HInt 7]} ∪ {[HInt 9]}))
  /\ today (rt := MiniJson.runtime) sample_update monday_world
     = (Ok tt, emit (EvReplyText 9 monday_message) monday_world).
Proof.
  destruct (two_commands (rt := MiniJson.runtime) (Some (lit "123:ABC"))
              {| app_post_init := post_init;
                 app_handlers := [(lit "start", start (rt := MiniJson.runtime));
                                  (lit "today", today (rt := MiniJson.runtime))] |})
    as (_ & _ & _ & _ & Hstart & Htoday); [reflexivity|].
  split.
  - destruct (Hstart sample_update two_subscribers_world {[HInt 5; HInt 7]})
      as (w' & _ & Hload & Hreply).
    + vm_compute. reflexivity.
    + intros _. split.
      * unfold iter_each_once. cbn [set_iter MiniJson.runtime]. reflexivity.
      * vm_compute. reflexivity.
    + exists w'. split; [|exact Hload].
      rewrite Hreply.
      apply (f_equal (fun text => (Ok tt, emit (EvReplyHtml 9 text) w'))).
      vm_compute. reflexivity.
  - apply Htoday. vm_compute. reflexivity.
Defined.

(** The store that holds the number [5]. *)
Lemma load_subscribers_wrong_shape_witness :
  exists e,
    exn_cls e = TypeError
    /\ load_subscribers (rt := MiniJson.runtime) number_store_world
       = (Raise e, number_store_world)
    /\ start (rt := MiniJson.runtime) sample_update number_store_world
       = (Raise e, number_store_world).
Proof.
  destruct (load_subscribers_wrong_shape (rt := MiniJson.runtime)
              number_store_world (lit "5") (PInt 5)
              {| exn_cls := TypeError; exn_msg := lit "object is not iterable" |})
    as (Hcls & Hload & _ & Hstart); [vm_compute; reflexivity ..|].
  eexists. split; [exact Hcls|]. split; [exact Hload|exact (Hstart _)].
Defined.

(** The send to chat 7, the first of the iteration, is cancelled: chats 9
    and 5 are not attempted. *)
Lemma broadcast_stops_on_cancellation_witness :
  send_schedule_job (rt := MiniJson.runtime) cancelled_world
  = (Raise cancelled, emit_all [EvSend (HInt 7) monday_message] cancelled_world).
Proof.
  rewrite (broadcast_stops_on_cancellation (rt := MiniJson.runtime)
             cancelled_world monday_message {[HInt 5; HInt 7; HInt 9]}
             [] (HInt 7) [HInt 9; HInt 5] cancelled).
  - reflexivity.
  - vm_compute. reflexivity.
  - vm_compute. reflexivity.
  - vm_compute. reflexivity.
  - by intros c' e' ?%elem_of_nil.
  - reflexivity.
  - reflexivity.
Defined.

(** No schedule file. *)
Lemma missing_schedule_file_witness :
  today (rt := MiniJson.runtime) sample_update no_schedule_world
  = (Raise {| exn_cls := FileNotFoundError; exn_msg := lit "schedule.json" |},
     no_schedule_world)
  /\ send_schedule_job (rt := MiniJson.runtime) no_schedule_world
     = (Raise {| exn_cls := FileNotFoundError; exn_msg := lit "schedule.json" |},
        no_schedule_world).
Proof.
  destruct (missing_schedule_file (rt := MiniJson.runtime)
              no_schedule_world sample_update)
    as (_ & Htoday & Hjob); [vm_compute; reflexivity|].
  split; [exact Htoday|exact Hjob].
Defined.


(** * Further properties *)

(** ** Splitting and stripping *)

Section MoreStringFacts.
Implicit Types (s p sep a b : pystr) (c : N).

Lemma split_steps_nonempty sep n s : split_steps n sep s <> [].
Proof. destruct n; simpl; destruct (find_sep sep s) as [[? ?]|]; done. Qed.

Lemma str_join_cons sep p (rest : list pystr) :
  rest <> [] -> str_join sep (p :: rest) = p ++ sep ++ str_join sep rest.
Proof. by destruct rest. Qed.

(** Joining the pieces of [split] with the separator gives the text back. *)
Lemma str_join_split sep s : sep <> [] -> str_join sep (split sep s) = s.
Proof.
  intros Hsep.
  assert (Hall : forall n s', (length s' <= n)%nat ->
                              str_join sep (split sep s') = s').
  { induction n as [|n IH]; intros s' Hlen.
    - destruct s'; [|simpl in Hlen; lia].
      unfold split. simpl. by destruct sep.
    - rewrite split_unfold by done.
      destruct (find_sep sep s') as [[a b]|] eqn:Hf; [|done].
      pose proof (find_sep_shorter _ _ _ _ Hsep Hf).
      rewrite str_join_cons by apply split_steps_nonempty.
      rewrite IH by lia. symmetry. by apply find_sep_Some. }
  by apply (Hall (length s)).
Qed.

(** No piece of [split] holds the separator. *)
Lemma split_piece_no_sep sep s p :
  sep <> [] -> p ∈ split sep s -> contains sep p = false.
Proof.
  intros Hsep.
  assert (Hall : forall n s', (length s' <= n)%nat ->
                              p ∈ split sep s' -> contains sep p = false).
  { induction n as [|n IH]; intros s' Hlen; rewrite split_unfold by done.
    - destruct s'; [|simpl in Hlen; lia].
      rewrite find_sep_eq. destruct sep; [done|]. cbn [startswith].
      intros ->%list_elem_of_singleton. reflexivity.
    - destruct (find_sep sep s') as [[a b]|] eqn:Hf.
      + pose proof (find_sep_shorter _ _ _ _ Hsep Hf).
        intros [->|Hp]%elem_of_cons.
        * by eapply find_sep_before.
        * apply (IH b); [lia|exact Hp].
      + intros ->%list_elem_of_singleton.
        rewrite find_sep_contains, Hf. apply bool_decide_eq_false_2.
        by intros [? ?]. }
  by apply (Hall (length s)).
Qed.

(** For a separator of one character: the character is in no piece. *)
Lemma contains_char c s : contains [c] s = false <-> c ∉ s.
Proof.
  induction s as [|x s IH]; rewrite contains_eq.
  - cbn. split; [intros _ ?%elem_of_nil; done|done].
  - cbn [startswith]. rewrite andb_true_r, orb_false_iff, IH, not_elem_of_cons.
    rewrite N.eqb_neq. done.
Qed.

Lemma lstrip_spec s :
  exists l, s = l ++ lstrip s
            /\ Forall (fun c => isspace c = true) l
            /\ match lstrip s with
               | [] => True
               | c :: _ => isspace c = false
               end.
Proof.
  induction s as [|x s (l & Hs & Hl & Hhead)]; [by exists []|].
  cbn [lstrip]. destruct (isspace x) eqn:Hx.
  - exists (x :: l). split; [cbn; by f_equal|]. split; [by constructor|done].
  - exists []. by rewrite Hx.
Qed.

Lemma lstrip_all_space s : Forall (fun c => isspace c = true) s -> lstrip s = [].
Proof. induction 1 as [|x s Hx _ IH]; [done|]. cbn. by rewrite Hx. Qed.

Lemma strip_all_space s : Forall (fun c => isspace c = true) s -> strip s = [].
Proof. intros Hs. unfold strip, rstrip. by rewrite (lstrip_all_space _ Hs). Qed.

(** X9.  [strip] removes the whitespace around a piece and nothing else:
    the piece is whitespace, then its stripped text, then whitespace, and
    the stripped text, when not empty, begins and ends with a character
    that is no whitespace.  So the entries the formatter renders carry no
    surrounding whitespace, and whitespace inside an entry stays. *)
Theorem strip_trims s :
  exists l r,
    s = l ++ strip s ++ r
    /\ Forall (fun c => isspace c = true) l
    /\ Forall (fun c => isspace c = true) r
    /\ (forall c, head (strip s) = Some c -> isspace c = false)
    /\ (forall c, last (strip s) = Some c -> isspace c = false).
Proof.
  destruct (lstrip_spec s) as (l & Hs & Hl & Hhead).
  destruct (lstrip_spec (reverse (lstrip s))) as (r' & Hr & Hr' & Hlast).
  assert (Ht : lstrip s = strip s ++ reverse r').
  { unfold strip, rstrip. rewrite <- reverse_app, <- Hr.
    by rewrite reverse_involutive. }
  exists l, (reverse r'). split; [by rewrite <- Ht|].
  split; [exact Hl|]. split; [by apply Forall_reverse|]. split.
  - intros c Hc. rewrite Ht in Hhead.
    destruct (strip s) as [|x t]; [discriminate Hc|].
    injection Hc as ->. exact Hhead.
  - intros c Hc. unfold strip, rstrip in Hc. rewrite last_reverse in Hc.
    destruct (lstrip (reverse (lstrip s))) as [|x t]; [discriminate Hc|].
    injection Hc as ->. exact Hlast.
Qed.

End MoreStringFacts.

(** ** More of the message formatter *)

Section MoreFormatterFacts.
Context `{rt : Runtime}.
Implicit Types (w : world) (ru text message : pystr).

(** What the formatter does, by the content of the schedule file. *)
Lemma formatter_outcome w ru :
  DAYS_MAPPING !! strftime_A (today_is w) = Some ru ->
  get_schedule_message_for_today w =
  (match files w !! SCHEDULE_FILE with
   | None => Raise {| exn_cls := FileNotFoundError; exn_msg := SCHEDULE_FILE |}
   | Some ftext =>
     match json_loads ftext with
     | None => Raise (json_error ftext)
     | Some (PDict d) =>
       let value := default PNone (d !! ru) in
       if negb (truthy value) then Ok (no_classes_message ru)
       else
         match value with
         | PStr text =>
           Ok ((lit "Сегодня " ++ ru ++ lit ":") ++ [LF]
               ++ concat (entry_line <$> (strip <$> split (lit ",") text)))
         | _ =>
           Raise {| exn_cls := AttributeError;
                    exn_msg := lit "object has no attribute 'split'" |}
         end
     | Some _ =>
       Raise {| exn_cls := AttributeError;
                exn_msg := lit "object has no attribute 'get'" |}
     end
   end, w).
Proof.
  intros Hru. rewrite (formatter_known_day _ _ Hru).
  unfold bind, load_schedule, bind, open_read.
  destruct (files w !! SCHEDULE_FILE) as [ftext|]; [|reflexivity].
  unfold json_load. destruct (json_loads ftext) as [v|]; [|reflexivity].
  unfold ret.
  destruct v as [| | | | |d]; try reflexivity.
  unfold get_method, ret. cbv zeta.
  destruct (negb (truthy (default PNone (d !! ru)))); [reflexivity|].
  destruct (default PNone (d !! ru)) as [| | |text| |]; try reflexivity.
  cbn [split_method]. unfold ret. rewrite fold_add_entry.
  by rewrite <- !(assoc_L (++)).
Qed.

Lemma today_outcome update w :
  today update w =
  match (get_schedule_message_for_today w).1 with
  | Ok message =>
    (Ok tt, emit (EvReplyText (effective_chat_id update) message) w)
  | Raise e => (Raise e, w)
  end.
Proof.
  unfold today, bind. rewrite formatter_run.
  by destruct (get_schedule_message_for_today w).1.
Qed.

(** X4.  A schedule file whose text is not JSON makes the formatter raise
    the [JSONDecodeError] of [json.load]: unlike [load_subscribers],
    [load_schedule] catches nothing, so whatever [json.load] raises on the
    file goes through.  [/today] raises it without a reply, and the job
    raises it before it reads the subscribers or sends anything. *)
Theorem schedule_not_json w ftext update :
  files w !! SCHEDULE_FILE = Some ftext ->
  json_loads ftext = None ->
  let e := json_error ftext in
  get_schedule_message_for_today w = (Raise e, w)
  /\ today update w = (Raise e, w)
  /\ send_schedule_job w = (Raise e, w).
Proof.
  intros Hf Hbad e.
  destruct (days_mapping_total (today_is w)) as [ru Hru].
  assert (Hmsg : get_schedule_message_for_today w = (Raise e, w)).
  { by rewrite (formatter_outcome _ _ Hru), Hf, Hbad. }
  split; [exact Hmsg|]. split.
  - by rewrite today_outcome, Hmsg.
  - by rewrite send_schedule_job_run, Hmsg.
Qed.

(** X5.  The shape of the schedule decides between a message and an
    [AttributeError].  A schedule that is JSON but no mapping raises it at
    [.get]; in a mapping, a value for today that is truthy and no string
    (a number, [true], a non-empty list or mapping) raises it at [.split];
    a falsy value of any type ([null], [false], [0], an empty string, list
    or mapping) gives the fallback message. *)
Theorem schedule_wrong_shape w ftext ru :
  DAYS_MAPPING !! strftime_A (today_is w) = Some ru ->
  files w !! SCHEDULE_FILE = Some ftext ->
  (forall v,
      json_loads ftext = Some v -> (forall d, v <> PDict d) ->
      exists e, exn_cls e = AttributeError
                /\ get_schedule_message_for_today w = (Raise e, w))
  /\ (forall d value,
        json_loads ftext = Some (PDict d) -> d !! ru = Some value ->
        truthy value = true -> (forall text, value <> PStr text) ->
        exists e, exn_cls e = AttributeError
                  /\ get_schedule_message_for_today w = (Raise e, w))
  /\ (forall d value,
        json_loads ftext = Some (PDict d) -> d !! ru = Some value ->
        truthy value = false ->
        get_schedule_message_for_today w = (Ok (no_classes_message ru), w)).
Proof.
  intros Hru Hf. rewrite (formatter_outcome _ _ Hru), Hf.
  split; [|split].
  - intros v -> Hv.
    destruct v as [| | | | |d];
      [eexists; (split; [|reflexivity]); reflexivity ..|by destruct (Hv d)].
  - intros d value -> -> Htrue Hstr. cbn [default from_option id].
    rewrite Htrue. cbn [negb].
    destruct value as [| | |text| |];
      try (eexists; (split; [|reflexivity]); reflexivity).
    by destruct (Hstr text).
  - intros d value -> -> Hfalse. cbn [default from_option id].
    by rewrite Hfalse.
Qed.

(** X6.  Whatever the schedule file holds, a message the formatter
    returns begins with the header line of today: [Сегодня], the Russian
    name of the weekday, a colon and a line feed. *)
Theorem message_names_the_day w message :
  (get_schedule_message_for_today w).1 = Ok message ->
  exists ru rest,
    DAYS_MAPPING !! strftime_A (today_is w) = Some ru
    /\ message = lit "Сегодня " ++ ru ++ lit ":" ++ [LF] ++ rest.
Proof.
  destruct (days_mapping_total (today_is w)) as [ru Hru].
  rewrite (formatter_outcome _ _ Hru). cbn [fst].
  intros Hmsg. exists ru.
  destruct (files w !! SCHEDULE_FILE) as [ftext|]; [|discriminate Hmsg].
  destruct (json_loads ftext) as [[| | | | |d]|]; try discriminate Hmsg.
  cbv zeta in Hmsg.
  destruct (negb (truthy (default PNone (d !! ru)))).
  - injection Hmsg as <-. exists (lit "Нет занятий."). split; [exact Hru|].
    reflexivity.
  - destruct (default PNone (d !! ru)) as [| | |text| |];
      try discriminate Hmsg.
    injection Hmsg as <-. eexists. split; [exact Hru|].
    rewrite <- !(assoc_L (++)). reflexivity.
Qed.

(** X7.  The entries are the pieces of the schedule text between its
    commas: joined with commas the pieces give the text back, there is one
    more piece than there are commas, and no piece and no entry holds a
    comma.  So a comma always ends an entry, and two commas in a row or a
    comma at the end give an empty entry, which is rendered too. *)
Theorem entries_between_commas w ftext sched ru text :
  DAYS_MAPPING !! strftime_A (today_is w) = Some ru ->
  files w !! SCHEDULE_FILE = Some ftext ->
  json_loads ftext = Some (PDict sched) ->
  sched !! ru = Some (PStr text) ->
  text <> [] ->
  let pieces := split (lit ",") text in
  get_schedule_message_for_today w
  = (Ok ((lit "Сегодня " ++ ru ++ lit ":") ++ [LF]
         ++ concat (entry_line <$> (strip <$> pieces))), w)
  /\ str_join (lit ",") pieces = text
  /\ length pieces = S (count (lit ",") text)
  /\ Forall (fun p => (44%N ∉ p) /\ (44%N ∉ strip p)) pieces.
Proof.
  intros Hru Hf Hv Ht Hne pieces.
  assert (Hsep : lit "," <> []) by done.
  split; [exact (formatter_text _ _ _ _ _ Hru Hf Hv Ht Hne)|].
  split; [by apply str_join_split|]. split; [apply length_split|].
  apply Forall_forall. intros p Hp.
  pose proof (split_piece_no_sep _ _ _ Hsep Hp) as Hno.
  apply (contains_char 44%N) in Hno.
  split; [exact Hno|]. by intros Hin%strip_elem.
Qed.

Lemma concat_const {A} (f : A -> pystr) (x : pystr) (l : list A) :
  Forall (fun a => f a = x) l ->
  concat (f <$> l) = concat (replicate (length l) x).
Proof.
  induction 1 as [|a l Ha _ IH]; [reflexivity|].
  rewrite fmap_cons. cbn [length replicate concat]. by rewrite Ha, IH.
Qed.

(** X8.  A schedule text that is not empty but holds only whitespace and
    commas is no "no classes" day for the formatter: the text is tested
    before it is stripped, so the message is the header followed by one
    empty line per piece, not the fallback message. *)
Theorem blank_schedule_gives_empty_lines w ftext sched ru text :
  DAYS_MAPPING !! strftime_A (today_is w) = Some ru ->
  files w !! SCHEDULE_FILE = Some ftext ->
  json_loads ftext = Some (PDict sched) ->
  sched !! ru = Some (PStr text) ->
  text <> [] ->
  Forall (fun c => isspace c = true \/ c = 44%N) text ->
  get_schedule_message_for_today w
  = (Ok ((lit "Сегодня " ++ ru ++ lit ":") ++ [LF]
         ++ concat (replicate (S (count (lit ",") text)) [LF])), w).
Proof.
  intros Hru Hf Hv Ht Hne Hblank.
  assert (Hsep : lit "," <> []) by done.
  rewrite (formatter_text _ _ _ _ _ Hru Hf Hv Ht Hne).
  do 4 f_equal. rewrite <- (length_split (lit ",") text).
  assert (Hall : Forall (fun p => entry_line (strip p) = [LF])
                   (split (lit ",") text)).
  { apply Forall_forall. intros p Hp.
    rewrite strip_all_space; [reflexivity|].
    apply Forall_forall. intros c Hc.
    pose proof (split_piece_no_sep _ _ _ Hsep Hp) as Hno.
    apply (contains_char 44%N) in Hno.
    assert (Hin : c ∈ text) by (by eapply split_elem).
    rewrite Forall_forall in Hblank.
    destruct (Hblank c Hin) as [Hspace| ->]; [exact Hspace|].
    by destruct (Hno Hc). }
  rewrite <- list_fmap_compose. by apply concat_const.
Qed.

End MoreFormatterFacts.

(** [{] is no JSON. *)
Lemma schedule_not_json_witness :
  exists e,
    exn_cls e = JSONDecodeError
    /\ today (rt := MiniJson.runtime) sample_update cut_off_schedule_world
       = (Raise e, cut_off_schedule_world)
    /\ send_schedule_job (rt := MiniJson.runtime) cut_off_schedule_world
       = (Raise e, cut_off_schedule_world).
Proof.
  destruct (schedule_not_json (rt := MiniJson.runtime)
              cut_off_schedule_world (lit "{") sample_update)
    as (_ & Htoday & Hjob); [vm_compute; reflexivity ..|].
  exists (json_error (Runtime := MiniJson.runtime) (lit "{")).
  split; [vm_compute; reflexivity|]. split; [exact Htoday|exact Hjob].
Defined.

(** A schedule that is a list, and a Monday whose value is the number 3. *)
Lemma schedule_wrong_shape_witness :
  (exists e, exn_cls e = AttributeError
             /\ get_schedule_message_for_today (rt := MiniJson.runtime)
                  list_schedule_world = (Raise e, list_schedule_world))
  /\ (exists e, exn_cls e = AttributeError
                /\ get_schedule_message_for_today (rt := MiniJson.runtime)
                     number_entry_world = (Raise e, number_entry_world)).
Proof.
  split.
  - destruct (schedule_wrong_shape (rt := MiniJson.runtime)
                list_schedule_world (lit "[1, 2]") (lit "Понедельник"))
      as (Hlist & _ & _); [vm_compute; reflexivity ..|].
    apply (Hlist (PList [PInt 1; PInt 2])); [vm_compute; reflexivity|].
    intros d. discriminate.
  - destruct (schedule_wrong_shape (rt := MiniJson.runtime)
                number_entry_world
                (lit "{" ++ quoted (lit "Понедельник") ++ lit ": 3}")
                (lit "Понедельник"))
      as (_ & Hnum & _); [vm_compute; reflexivity ..|].
    apply (Hnum {[ lit "Понедельник" := PInt 3 ]} (PInt 3));
      [vm_compute; reflexivity ..|].
    intros text. discriminate.
Defined.

(** The message of the sample Monday. *)
Lemma message_names_the_day_witness :
  exists ru rest,
    DAYS_MAPPING !! strftime_A Monday = Some ru
    /\ monday_message = lit "Сегодня " ++ ru ++ lit ":" ++ [LF] ++ rest.
Proof.
  apply (message_names_the_day (rt := MiniJson.runtime) monday_world).
  vm_compute. reflexivity.
Defined.

(** The schedule [Math - 10:00, PE ,Art - room 5 - 12:00]: three pieces
    for two commas. *)
Lemma entries_between_commas_witness :
  str_join (lit ",") (split (lit ",") (lit "Math - 10:00, PE ,Art - room 5 - 12:00"))
  = lit "Math - 10:00, PE ,Art - room 5 - 12:00"
  /\ length (split (lit ",") (lit "Math - 10:00, PE ,Art - room 5 - 12:00"))
     = 3%nat.
Proof.
  destruct (entries_between_commas (rt := MiniJson.runtime) monday_world
              monday_schedule
              {[ lit "Понедельник" := PStr (lit "Math - 10:00, PE ,Art - room 5 - 12:00") ]}
              (lit "Понедельник") (lit "Math - 10:00, PE ,Art - room 5 - 12:00"))
    as (_ & Hjoin & Hlen & _);
    [vm_compute; reflexivity ..|discriminate|].
  split; [exact Hjoin|]. rewrite Hlen. vm_compute. reflexivity.
Defined.

(** The schedule [ , ] of blanks around one comma: two empty lines. *)
Lemma blank_schedule_gives_empty_lines_witness :
  get_schedule_message_for_today (rt := MiniJson.runtime) blank_entry_world
  = (Ok (lit "Сегодня Понедельник:" ++ [LF; LF; LF]), blank_entry_world).
Proof.
  assert (Hblank : Forall (fun c => isspace c = true \/ c = 44%N) (lit " , ")).
  { repeat (constructor; [first [left; reflexivity|right; reflexivity]|]).
    constructor. }
  rewrite (blank_schedule_gives_empty_lines (rt := MiniJson.runtime)
             blank_entry_world
             (lit "{" ++ quoted (lit "Понедельник") ++ lit ": "
              ++ quoted (lit " , ") ++ lit "}")
             {[ lit "Понедельник" := PStr (lit " , ") ]}
             (lit "Понедельник") (lit " , "));
    [|vm_compute; reflexivity ..|discriminate|exact Hblank].
  vm_compute. reflexivity.
Defined.

(** ** More of the store, the job and the handlers *)

(** Sets of chats. *)
Lemma saved_known (S R : gset hashable) (x : hashable) :
  x ∈ S -> ({[x]} ∪ R) ∖ S = R ∖ (S ∪ {[x]}).
Proof.
  intros Hx. apply set_eq. intros y.
  rewrite !elem_of_difference, !elem_of_union, !elem_of_singleton.
  destruct (decide (y = x)) as [->|Hne]; tauto.
Qed.

Lemma saved_new (S R : gset hashable) (x : hashable) :
  x ∉ S ->
  ({[x]} ∪ R) ∖ S = {[x]} ∪ (R ∖ (S ∪ {[x]}))
  /\ {[x]} ## (R ∖ (S ∪ {[x]})).
Proof.
  intros Hx. split.
  - apply set_eq. intros y.
    rewrite !elem_of_union, !elem_of_difference, !elem_of_union,
      !elem_of_singleton.
    destruct (decide (y = x)) as [->|Hne]; tauto.
  - apply disjoint_singleton_l.
    rewrite elem_of_difference, elem_of_union, elem_of_singleton. tauto.
Qed.

Lemma count_events_app p (es1 es2 : list event) :
  count_events p (es1 ++ es2)
  = (count_events p es1 + count_events p es2)%nat.
Proof. induction es1 as [|ev es1 IH]; simpl; [done|]. rewrite IH. lia. Qed.

Section MoreJobFacts.
Context `{rt : Runtime}.
Implicit Types (w : world) (S : gset hashable) (message : pystr).

(** Loading reads the subscribers file and nothing else. *)
Lemma load_subscribers_files w w' :
  files w !! SUBSCRIBERS_FILE = files w' !! SUBSCRIBERS_FILE ->
  (load_subscribers w).1 = (load_subscribers w').1.
Proof.
  intros Hf. destruct (files w !! SUBSCRIBERS_FILE) as [text|] eqn:Hw.
  - by rewrite (load_subscribers_text w text Hw),
      (load_subscribers_text w' text (eq_sym Hf)).
  - by rewrite (load_subscribers_missing w Hw),
      (load_subscribers_missing w' (eq_sym Hf)).
Qed.

Lemma files_differ : SUBSCRIBERS_FILE <> SCHEDULE_FILE.
Proof. vm_compute. discriminate. Qed.

(** The events of the turns of a list without repetition. *)
Lemma count_sends network message (l : list hashable) c :
  NoDup l ->
  count_events (sends_to c) (concat (turn_events network message <$> l))
  = if bool_decide (c ∈ l) then 1%nat else 0%nat.
Proof.
  induction 1 as [|x l Hx _ IH].
  - cbn. rewrite bool_decide_eq_false_2; [done|]. by intros ?%elem_of_nil.
  - rewrite fmap_cons. cbn [concat]. rewrite count_events_app, IH.
    assert (Hturn : count_events (sends_to c) (turn_events network message x)
                    = if bool_decide (x = c) then 1%nat else 0%nat).
    { unfold turn_events. cbn [count_events sends_to].
      destruct (network x message); cbn [count_events sends_to];
        destruct (bool_decide (x = c)); reflexivity. }
    rewrite Hturn.
    destruct (decide (x = c)) as [->|Hne].
    + rewrite bool_decide_eq_true_2 by reflexivity.
      rewrite (bool_decide_eq_false_2 _ Hx).
      rewrite bool_decide_eq_true_2; [done|]. apply elem_of_cons. by left.
    + rewrite (bool_decide_eq_false_2 _ Hne). cbn [Nat.add].
      destruct (decide (c ∈ l)) as [Hin|Hnotin].
      * rewrite !bool_decide_eq_true_2; [done| |exact Hin].
        apply elem_of_cons. by right.
      * rewrite !bool_decide_eq_false_2; [done| |exact Hnotin].
        intros [Heq|Hin]%elem_of_cons; [by destruct Hne|by destruct Hnotin].
Qed.

Lemma count_logs network message (l : list hashable) :
  count_events is_log_error (concat (turn_events network message <$> l))
  = length (filter (fun c => is_Some (network c message)) l).
Proof.
  induction l as [|x l IH]; [done|].
  rewrite fmap_cons. cbn [concat]. rewrite count_events_app, IH.
  unfold turn_events. destruct (network x message) as [e|] eqn:He.
  - rewrite filter_cons_True by (rewrite He; eauto). reflexivity.
  - rewrite filter_cons_False by (rewrite He; by intros [? ?]). reflexivity.
Qed.

Lemma turn_events_kinds network message (l : list hashable) :
  Forall (fun ev => is_send ev = true \/ is_log_error ev = true)
    (concat (turn_events network message <$> l)).
Proof.
  induction l as [|x l IH]; [constructor|].
  rewrite fmap_cons. cbn [concat]. apply Forall_app. split; [|exact IH].
  unfold turn_events. destruct (network x message);
    repeat (constructor; [first [by left|by right]|]); constructor.
Qed.

Lemma turn_events_from network message (l : list hashable) c text :
  EvSend c text ∈ concat (turn_events network message <$> l) ->
  c ∈ l /\ text = message.
Proof.
  induction l as [|x l IH]; [by intros ?%elem_of_nil|].
  rewrite fmap_cons. cbn [concat]. rewrite elem_of_app.
  intros [Hx|Hl].
  - unfold turn_events in Hx. apply elem_of_cons in Hx as [Heq|Hx].
    + injection Heq as -> ->. split; [apply elem_of_cons; by left|done].
    + destruct (network x message);
        [apply elem_of_cons in Hx as [Heq|Hx]; [discriminate Heq|]|];
        by apply elem_of_nil in Hx.
  - destruct (IH Hl) as [Hc ->]. split; [apply elem_of_cons; by right|done].
Qed.

(** X10.  When the job has its message and its subscribers, and every
    failure of a send is an error: each subscriber is sent the message
    exactly once, no other chat is sent anything, no other text is sent,
    and one error is logged per subscriber whose send fails. *)
Theorem each_subscriber_once w message S :
  (get_schedule_message_for_today w).1 = Ok message ->
  (load_subscribers w).1 = Ok S ->
  iter_each_once S ->
  (forall c e,
      c ∈ S -> net w c message = Some e -> is_Exception e = true) ->
  exists w' es,
    send_schedule_job w = (Ok tt, w')
    /\ trace w' = trace w ++ es
    /\ (forall c,
          count_events (sends_to c) es
          = if bool_decide (c ∈ S) then 1%nat else 0%nat)
    /\ (forall c text, EvSend c text ∈ es -> c ∈ S /\ text = message)
    /\ count_events is_log_error es
       = length (filter (fun c => is_Some (net w c message)) (set_iter S)).
Proof.
  intros Hmsg Hload Hiter Hexn. unfold iter_each_once in Hiter.
  assert (Hmem : forall c, c ∈ set_iter S <-> c ∈ S).
  { intros c. rewrite Hiter. apply elem_of_elements. }
  assert (Hnodup : NoDup (set_iter S)).
  { rewrite Hiter. apply NoDup_elements. }
  exists (emit_all (concat (turn_events (net w) message <$> set_iter S)) w),
    (concat (turn_events (net w) message <$> set_iter S)).
  split; [|split; [reflexivity|split; [|split]]].
  - rewrite send_schedule_job_run, Hmsg, Hload. apply job_loop_all.
    intros c e Hc. apply Hexn. by apply Hmem.
  - intros c. rewrite (count_sends _ _ _ _ Hnodup).
    destruct (decide (c ∈ S)) as [Hin|Hnotin].
    + rewrite !bool_decide_eq_true_2; [done|exact Hin|by apply Hmem].
    + rewrite !bool_decide_eq_false_2; [done|exact Hnotin|].
      by intros ?%Hmem.
  - intros c text Hin. apply turn_events_from in Hin as [Hc ->].
    split; [by apply Hmem|done].
  - apply count_logs.
Qed.

End MoreJobFacts.

(** Chat 7 has blocked the bot; chats 5, 7 and 9 are attempted once, chat
    8 never, and one error is logged. *)
Lemma each_subscriber_once_witness :
  exists w' es,
    send_schedule_job (rt := MiniJson.runtime) blocked_world = (Ok tt, w')
    /\ trace w' = trace blocked_world ++ es
    /\ count_events (sends_to (HInt 7)) es = 1%nat
    /\ count_events (sends_to (HInt 8)) es = 0%nat
    /\ count_events is_log_error es = 1%nat.
Proof.
  destruct (each_subscriber_once (rt := MiniJson.runtime)
              blocked_world monday_message {[HInt 5; HInt 7; HInt 9]})
    as (w' & es & Hjob & Htrace & Hsends & _ & Hlogs).
  - vm_compute. reflexivity.
  - vm_compute. reflexivity.
  - unfold iter_each_once. cbn [set_iter MiniJson.runtime]. reflexivity.
  - intros c e _. unfold blocked_world, sample_world. cbn [net].
    unfold blocked_by_7. destruct (bool_decide (c = HInt 7)); [|discriminate].
    intros [= <-]. reflexivity.
  - exists w', es. split; [exact Hjob|]. split; [exact Htrace|].
    split; [|split].
    + rewrite Hsends. vm_compute. reflexivity.
    + rewrite Hsends. vm_compute. reflexivity.
    + rewrite Hlogs. vm_compute. reflexivity.
Defined.

Section MoreHandlerFacts.
Context `{rt : Runtime}.
Implicit Types (w : world) (S : gset hashable) (message : pystr).

(** The loop in general: it sends and it logs errors, nothing else. *)
Lemma job_loop_kinds message (l : list hashable) w :
  exists r es,
    for_each l (job_turn message) w = (r, emit_all es w)
    /\ Forall (fun ev => is_send ev = true \/ is_log_error ev = true) es.
Proof.
  revert w. induction l as [|c l IH]; intros w.
  - exists (Ok tt), []. split; [by rewrite emit_all_nil|constructor].
  - cbn [for_each]. unfold bind. rewrite job_turn_run.
    assert (Hturn : Forall (fun ev => is_send ev = true \/ is_log_error ev = true)
                      (turn_events (net w) message c)).
    { unfold turn_events. destruct (net w c message);
        repeat (constructor; [first [by left|by right]|]); constructor. }
    assert (Hgo : exists r es,
               for_each l (job_turn message)
                 (emit_all (turn_events (net w) message c) w) = (r, emit_all es w)
               /\ Forall (fun ev => is_send ev = true \/ is_log_error ev = true) es).
    { destruct (IH (emit_all (turn_events (net w) message c) w))
        as (r & es & -> & Hes).
      exists r, (turn_events (net w) message c ++ es).
      split; [by rewrite emit_all_app|]. by apply Forall_app. }
    destruct (net w c message) as [e|]; [|exact Hgo].
    destruct (is_Exception e); [exact Hgo|].
    exists (Raise e), [EvSend c message]. split; [reflexivity|].
    constructor; [by left|constructor].
Qed.

(** [/start], by what the store loads as. *)
Lemma start_outcome update w :
  let c := effective_chat_id update in
  let reply := EvReplyHtml c (greeting (effective_user update)) in
  start update w =
  match (load_subscribers w).1 with
  | Ok subscribers =>
    if bool_decide (HInt c ∈ subscribers) then (Ok tt, emit reply w)
    else
      let text :=
        json_dumps (PList (hval <$> set_iter (subscribers ∪ {[HInt c]}))) in
      (Ok tt,
       emit reply
         (emit (EvWrite SUBSCRIBERS_FILE text)
            (set_files (<[SUBSCRIBERS_FILE := text]> (files w)) w)))
  | Raise e => (Raise e, w)
  end.
Proof.
  intros c reply. unfold start, save_subscriber, bind.
  rewrite load_subscribers_run.
  destruct (load_subscribers w).1 as [S|e]; cbn [fst]; [|reflexivity].
  fold c. destruct (bool_decide (HInt c ∈ S)); reflexivity.
Qed.

Lemma job_leaves w :
  files (send_schedule_job w).2 = files w
  /\ jobs (send_schedule_job w).2 = jobs w
  /\ exists es,
      trace (send_schedule_job w).2 = trace w ++ es
      /\ Forall (fun ev => is_send ev = true \/ is_log_error ev = true) es.
Proof.
  rewrite send_schedule_job_run.
  assert (Hsame : files w = files w /\ jobs w = jobs w
                  /\ exists es, trace w = trace w ++ es
                     /\ Forall (fun ev => is_send ev = true
                                          \/ is_log_error ev = true) es).
  { split; [done|]. split; [done|]. exists [].
    split; [by rewrite app_nil_r|constructor]. }
  destruct (get_schedule_message_for_today w).1 as [message|e];
    [|exact Hsame].
  destruct (load_subscribers w).1 as [S|e]; [|exact Hsame].
  destruct (job_loop_kinds message (set_iter S) w) as (r & es & -> & Hes).
  split; [reflexivity|]. split; [reflexivity|]. by exists es.
Qed.

Lemma today_leaves update w :
  files (today update w).2 = files w
  /\ jobs (today update w).2 = jobs w
  /\ exists es,
      trace (today update w).2 = trace w ++ es
      /\ Forall (fun ev => is_reply ev = true) es
      /\ (length es <= 1)%nat.
Proof.
  rewrite today_outcome.
  destruct (get_schedule_message_for_today w).1 as [message|e].
  - split; [reflexivity|]. split; [reflexivity|].
    exists [EvReplyText (effective_chat_id update) message].
    split; [reflexivity|]. split; [by repeat constructor|done].
  - split; [reflexivity|]. split; [reflexivity|]. exists [].
    split; [by rewrite app_nil_r|]. split; [constructor|cbn; lia].
Qed.

Lemma start_leaves update w :
  (forall path,
      path <> SUBSCRIBERS_FILE ->
      files (start update w).2 !! path = files w !! path)
  /\ jobs (start update w).2 = jobs w
  /\ exists es,
      trace (start update w).2 = trace w ++ es
      /\ Forall (fun ev => is_write ev = true \/ is_reply ev = true) es.
Proof.
  rewrite start_outcome. cbv zeta.
  set (reply := EvReplyHtml (effective_chat_id update)
                  (greeting (effective_user update))).
  destruct (load_subscribers w).1 as [S|e].
  - destruct (bool_decide (HInt (effective_chat_id update) ∈ S)).
    + split; [reflexivity|]. split; [reflexivity|]. exists [reply].
      split; [reflexivity|]. constructor; [by right|constructor].
    + set (text := json_dumps _).
      split; [|split; [reflexivity|]].
      * intros path Hpath. unfold emit, set_files. cbn [snd files].
        apply lookup_insert_ne. congruence.
      * exists [EvWrite SUBSCRIBERS_FILE text; reply].
        split.
        -- unfold emit, set_files. cbn [snd trace].
           rewrite <- (assoc_L (++)). reflexivity.
        -- constructor; [by left|]. constructor; [by right|constructor].
  - split; [reflexivity|]. split; [reflexivity|]. exists [].
    split; [by rewrite app_nil_r|constructor].
Qed.

(** X11.  What the handlers and the job leave alone, in every world and
    whether they raise or not.  The job and [/today] change no file and
    no scheduler job; the job only sends and logs errors, [/today] at most
    replies once.  [/start] changes no file but [subscribers.json] and no
    scheduler job, and it only writes and replies. *)
Theorem handlers_leave_the_rest :
  (forall w,
      files (send_schedule_job w).2 = files w
      /\ jobs (send_schedule_job w).2 = jobs w
      /\ exists es,
          trace (send_schedule_job w).2 = trace w ++ es
          /\ Forall (fun ev => is_send ev = true \/ is_log_error ev = true) es)
  /\ (forall update w,
        files (today update w).2 = files w
        /\ jobs (today update w).2 = jobs w
        /\ exists es,
            trace (today update w).2 = trace w ++ es
            /\ Forall (fun ev => is_reply ev = true) es
            /\ (length es <= 1)%nat)
  /\ (forall update w,
        (forall path,
            path <> SUBSCRIBERS_FILE ->
            files (start update w).2 !! path = files w !! path)
        /\ jobs (start update w).2 = jobs w
        /\ exists es,
            trace (start update w).2 = trace w ++ es
            /\ Forall (fun ev => is_write ev = true \/ is_reply ev = true) es).
Proof.
  split; [exact job_leaves|]. split; [exact today_leaves|exact start_leaves].
Qed.

End MoreHandlerFacts.

Section ComposedFacts.
Context `{rt : Runtime}.
Implicit Types (w : world) (S : gset hashable) (message : pystr).

Lemma set_iter_empty : iter_each_once ∅ -> set_iter ∅ = [].
Proof.
  unfold iter_each_once. rewrite elements_empty.
  intros Hperm. by apply Permutation_nil_r.
Qed.

(** One [/start] in a world whose store loads and whose written list
    reads back. *)
Lemma start_step update w S :
  (load_subscribers w).1 = Ok S ->
  let c := effective_chat_id update in
  (HInt c ∉ S -> reads_back (S ∪ {[HInt c]})) ->
  exists w1,
    start update w = (Ok tt, w1)
    /\ (load_subscribers w1).1 = Ok (S ∪ {[HInt c]})
    /\ today_is w1 = today_is w /\ net w1 = net w
    /\ files w1 !! SCHEDULE_FILE = files w !! SCHEDULE_FILE
    /\ trace w1
       = trace w
         ++ (if bool_decide (HInt c ∈ S) then []
             else [EvWrite SUBSCRIBERS_FILE
                     (json_dumps (PList (hval <$> set_iter (S ∪ {[HInt c]}))))])
         ++ [EvReplyHtml c (greeting (effective_user update))].
Proof.
  intros Hload c Hback. rewrite start_outcome, Hload. cbv zeta. fold c.
  set (reply := EvReplyHtml c (greeting (effective_user update))).
  destruct (decide (HInt c ∈ S)) as [Hin|Hnotin].
  - rewrite (bool_decide_eq_true_2 _ Hin). exists (emit reply w).
    split; [reflexivity|]. split.
    + rewrite (union_known S _ Hin), <- Hload.
      by apply load_subscribers_files.
    + repeat (split; [reflexivity|]). reflexivity.
  - rewrite (bool_decide_eq_false_2 _ Hnotin).
    destruct (Hback Hnotin) as [Hiter Hround].
    set (text := json_dumps (PList (hval <$> set_iter (S ∪ {[HInt c]})))).
    set (ws := emit (EvWrite SUBSCRIBERS_FILE text)
                 (set_files (<[SUBSCRIBERS_FILE := text]> (files w)) w)).
    exists (emit reply ws). split; [reflexivity|]. split.
    + rewrite (load_subscribers_files (emit reply ws) ws) by reflexivity.
      unfold ws, text. by rewrite (load_written w _ _ Hiter Hround).
    + split; [reflexivity|]. split; [reflexivity|]. split.
      * unfold ws, emit, set_files. cbn [files].
        apply lookup_insert_ne. apply files_differ.
      * unfold ws, emit, set_files. cbn [trace].
        rewrite <- (assoc_L (++)). reflexivity.
Qed.

(** X12.  A subscribers file on which [json.load] raises a
    [JSONDecodeError] is treated as an empty store without a word: the job
    sends nothing and ends normally, and the next [save_subscriber]
    replaces the file by the list of that one chat, so whatever the file
    held is gone.  When [json.load] raises an exception of another class
    on the file, nothing is overwritten: the job and [save_subscriber]
    raise that exception and leave everything as it was. *)
Theorem corrupted_store_is_overwritten w text message c :
  files w !! SUBSCRIBERS_FILE = Some text ->
  json_loads text = None ->
  (get_schedule_message_for_today w).1 = Ok message ->
  iter_each_once ∅ ->
  reads_back {[HInt c]} ->
  (exn_cls (json_error text) = JSONDecodeError ->
   send_schedule_job w = (Ok tt, w)
   /\ exists w',
       save_subscriber c w = (Ok tt, w')
       /\ files w' !! SUBSCRIBERS_FILE
          = Some (json_dumps (PList (hval <$> set_iter {[HInt c]})))
       /\ (load_subscribers w').1 = Ok {[HInt c]})
  /\ (exn_cls (json_error text) <> JSONDecodeError ->
      send_schedule_job w = (Raise (json_error text), w)
      /\ save_subscriber c w = (Raise (json_error text), w)).
Proof.
  intros Hf Hbad Hmsg Hempty [Hiter Hround].
  pose proof (load_subscribers_text _ _ Hf) as Htext.
  rewrite Hbad in Htext. unfold is_JSONDecodeError in Htext.
  split; intros Hcls.
  - rewrite (bool_decide_eq_true_2 _ Hcls) in Htext.
    assert (Hload : (load_subscribers w).1 = Ok ∅) by (by rewrite Htext).
    split.
    + rewrite send_schedule_job_run, Hmsg, Hload, (set_iter_empty Hempty).
      reflexivity.
    + assert (Hone : (∅ : gset hashable) ∪ {[HInt c]} = {[HInt c]})
        by apply (left_id_L ∅ (∪)).
      assert (Hnotin : HInt c ∉ (∅ : gset hashable))
        by apply not_elem_of_empty.
      pose proof (save_subscriber_new w c ∅ Hload Hnotin) as Hsave.
      cbv zeta in Hsave. rewrite Hone in Hsave.
      eexists. split; [exact Hsave|]. split.
      * unfold emit, set_files. cbn [files]. apply lookup_insert_eq.
      * by rewrite (load_written w _ _ Hiter Hround).
  - rewrite (bool_decide_eq_false_2 _ Hcls) in Htext. split.
    + by rewrite send_schedule_job_run, Hmsg, Htext.
    + unfold save_subscriber, bind. by rewrite Htext.
Qed.

(** X13.  Subscribing takes effect at the next broadcast: after [/start]
    from a chat, the job, run in the world [/start] leaves, sends the
    message of the day to that chat and to every chat that was stored
    before.  (The store loads, the written list reads back, and every
    failure of a send is an error.) *)
Theorem subscribe_then_broadcast update w S message :
  (load_subscribers w).1 = Ok S ->
  (get_schedule_message_for_today w).1 = Ok message ->
  let c := effective_chat_id update in
  iter_each_once (S ∪ {[HInt c]}) ->
  (HInt c ∉ S -> reads_back (S ∪ {[HInt c]})) ->
  (forall x e, net w x message = Some e -> is_Exception e = true) ->
  exists w1 w2 es,
    start update w = (Ok tt, w1)
    /\ send_schedule_job w1 = (Ok tt, w2)
    /\ trace w2 = trace w1 ++ es
    /\ EvSend (HInt c) message ∈ es
    /\ forall x, x ∈ S -> EvSend x message ∈ es.
Proof.
  intros Hload Hmsg c Hiter Hback Hexn.
  destruct (start_step update w S Hload Hback)
    as (w1 & Hstart & Hload1 & Hday & Hnet & Hsched & _).
  fold c in Hload1.
  assert (Hmsg1 : (get_schedule_message_for_today w1).1 = Ok message).
  { rewrite <- Hmsg. by apply formatter_reads. }
  assert (Hmem : forall x, x ∈ set_iter (S ∪ {[HInt c]}) <-> x ∈ S ∪ {[HInt c]}).
  { intros x. unfold iter_each_once in Hiter. rewrite Hiter.
    apply elem_of_elements. }
  exists w1,
    (emit_all (concat (turn_events (net w1) message
                         <$> set_iter (S ∪ {[HInt c]}))) w1),
    (concat (turn_events (net w1) message <$> set_iter (S ∪ {[HInt c]}))).
  split; [exact Hstart|]. split.
  - rewrite send_schedule_job_run, Hmsg1, Hload1. apply job_loop_all.
    intros x e _. rewrite Hnet. apply Hexn.
  - split; [reflexivity|]. split.
    + apply turn_events_sent, Hmem, elem_of_union_r, elem_of_singleton.
      reflexivity.
    + intros x Hx. by apply turn_events_sent, Hmem, elem_of_union_l.
Qed.

Lemma chats_of_nil : chats_of [] = ∅.
Proof. reflexivity. Qed.

Lemma chats_of_cons u updates :
  chats_of (u :: updates) = {[HInt (effective_chat_id u)]} ∪ chats_of updates.
Proof. unfold chats_of. rewrite fmap_cons. apply list_to_set_cons. Qed.

(** X14.  A run of [/start] commands, handled one after the other from a
    store that loads as [S]: the store ends as [S] with the chats of all
    the updates, every update gets its greeting, in order, and the file is
    written once for each chat that was not stored, never for a chat that
    was.  (Every list written on the way reads back.) *)
Theorem starts_accumulate updates w S :
  (load_subscribers w).1 = Ok S ->
  reads_back_along S (effective_chat_id <$> updates) ->
  exists w' es,
    for_each updates start w = (Ok tt, w')
    /\ trace w' = trace w ++ es
    /\ (load_subscribers w').1 = Ok (S ∪ chats_of updates)
    /\ List.filter is_reply es
       = (fun u => EvReplyHtml (effective_chat_id u)
                     (greeting (effective_user u))) <$> updates
    /\ count_events is_write es = size (chats_of updates ∖ S).
Proof.
  revert w S. induction updates as [|u updates IH]; intros w S Hload Hback.
  - exists w, []. split; [reflexivity|]. split; [by rewrite app_nil_r|].
    rewrite chats_of_nil. split.
    + rewrite (right_id_L ∅ (∪)). exact Hload.
    + split; [reflexivity|].
      assert ((∅ : gset hashable) ∖ S = ∅) as ->.
      { apply set_eq. intros x. rewrite elem_of_difference.
        split; [by intros [?%not_elem_of_empty _]|by intros ?%not_elem_of_empty]. }
      rewrite size_empty. reflexivity.
  - cbn [fmap list_fmap reads_back_along] in Hback.
    destruct Hback as [Hback Halong].
    destruct (start_step u w S Hload Hback)
      as (w1 & Hstart & Hload1 & _ & _ & _ & Htrace1).
    destruct (IH w1 _ Hload1 Halong)
      as (w' & es & Hrun & Htrace & Hload' & Hreplies & Hwrites).
    set (c := effective_chat_id u) in *.
    set (first_events :=
           (if bool_decide (HInt c ∈ S) then []
            else [EvWrite SUBSCRIBERS_FILE
                    (json_dumps (PList (hval <$> set_iter (S ∪ {[HInt c]}))))])
           ++ [EvReplyHtml c (greeting (effective_user u))]) in *.
    exists w', (first_events ++ es).
    split; [cbn [for_each]; unfold bind; rewrite Hstart; exact Hrun|].
    split; [rewrite Htrace, Htrace1, <- !(assoc_L (++)); reflexivity|].
    assert (Hchats : chats_of (u :: updates) = {[HInt c]} ∪ chats_of updates)
      by apply chats_of_cons.
    split; [|split].
    + rewrite Hload', Hchats. f_equal. by rewrite (assoc_L (∪)).
    + rewrite List.filter_app, Hreplies, fmap_cons. unfold first_events.
      destruct (bool_decide (HInt c ∈ S)); reflexivity.
    + rewrite count_events_app, Hwrites, Hchats. unfold first_events.
      destruct (decide (HInt c ∈ S)) as [Hin|Hnotin].
      * rewrite (bool_decide_eq_true_2 _ Hin). cbn [app count_events is_write].
        by rewrite (saved_known _ _ _ Hin).
      * rewrite (bool_decide_eq_false_2 _ Hnotin).
        cbn [app count_events is_write].
        destruct (saved_new S (chats_of updates) _ Hnotin) as [-> Hdisj].
        rewrite (size_union _ _ Hdisj), size_singleton. lia.
Qed.

(** X15.  Nothing the program does removes a subscriber.  The job and
    [/today] leave the store as it loads; [/start] leaves a store that
    loads as the old set with the chat of the update added.  (For
    [/start], the list it writes reads back.) *)
Theorem store_only_grows w S :
  (load_subscribers w).1 = Ok S ->
  (load_subscribers (send_schedule_job w).2).1 = Ok S
  /\ (forall update, (load_subscribers (today update w).2).1 = Ok S)
  /\ (forall update,
        let c := effective_chat_id update in
        (HInt c ∉ S -> reads_back (S ∪ {[HInt c]})) ->
        (load_subscribers (start update w).2).1 = Ok (S ∪ {[HInt c]})
        /\ S ⊆ S ∪ {[HInt c]}).
Proof.
  intros Hload. split; [|split].
  - rewrite <- Hload. apply load_subscribers_files.
    destruct (job_leaves w) as [-> _]. reflexivity.
  - intros update. rewrite <- Hload. apply load_subscribers_files.
    destruct (today_leaves update w) as [-> _]. reflexivity.
  - intros update c Hback.
    destruct (start_step update w S Hload Hback) as (w1 & -> & Hload1 & _).
    split; [exact Hload1|]. apply union_subseteq_l.
Qed.

End ComposedFacts.

(** The subscribers file is cut off after [[5, 7]; then chat 9 is saved.
    And the subscribers file of 100000 opening brackets, on which the
    reader raises [RecursionError]. *)
Lemma corrupted_store_is_overwritten_witness :
  (send_schedule_job (rt := MiniJson.runtime) malformed_subscribers_world
   = (Ok tt, malformed_subscribers_world)
   /\ exists w',
       save_subscriber (rt := MiniJson.runtime) 9 malformed_subscribers_world
       = (Ok tt, w')
       /\ files w' !! SUBSCRIBERS_FILE = Some (lit "[9]"))
  /\ exists e,
       exn_cls e = RecursionError
       /\ send_schedule_job (rt := MiniJson.runtime) deep_store_world
          = (Raise e, deep_store_world)
       /\ save_subscriber (rt := MiniJson.runtime) 9 deep_store_world
          = (Raise e, deep_store_world).
Proof.
  assert (Hempty : iter_each_once (rt := MiniJson.runtime) ∅).
  { unfold iter_each_once. cbn [set_iter MiniJson.runtime]. reflexivity. }
  assert (Hback : reads_back (rt := MiniJson.runtime) {[HInt 9]}).
  { split.
    - unfold iter_each_once. cbn [set_iter MiniJson.runtime]. reflexivity.
    - vm_compute. reflexivity. }
  split.
  - destruct (corrupted_store_is_overwritten (rt := MiniJson.runtime)
                malformed_subscribers_world (lit "[5, 7") monday_message 9)
      as [Hcut _]; [vm_compute; reflexivity ..|exact Hempty|exact Hback|].
    destruct Hcut as (Hjob & w' & Hsave & Hfile & _);
      [vm_compute; reflexivity|].
    split; [exact Hjob|]. exists w'. split; [exact Hsave|].
    rewrite Hfile. vm_compute. reflexivity.
  - destruct (corrupted_store_is_overwritten (rt := MiniJson.runtime)
                deep_store_world deep_store monday_message 9)
      as [_ Hdeep];
      [apply sample_subscribers_file|vm_compute; reflexivity
      |vm_compute; reflexivity|exact Hempty|exact Hback|].
    exists (json_error (Runtime := MiniJson.runtime) deep_store).
    split; [vm_compute; reflexivity|].
    apply Hdeep. vm_compute. discriminate.
Defined.

(** Chat 9 subscribes to the store [[5, 7]]; the next job reaches it. *)
Lemma subscribe_then_broadcast_witness :
  exists w1 w2 es,
    start (rt := MiniJson.runtime) sample_update two_subscribers_world
    = (Ok tt, w1)
    /\ send_schedule_job (rt := MiniJson.runtime) w1 = (Ok tt, w2)
    /\ trace w2 = trace w1 ++ es
    /\ EvSend (HInt 9) monday_message ∈ es.
Proof.
  destruct (subscribe_then_broadcast (rt := MiniJson.runtime)
              sample_update two_subscribers_world {[HInt 5; HInt 7]}
              monday_message)
    as (w1 & w2 & es & Hstart & Hjob & Htrace & Hsent & _).
  - vm_compute. reflexivity.
  - vm_compute. reflexivity.
  - unfold iter_each_once. cbn [set_iter MiniJson.runtime]. reflexivity.
  - intros _. split.
    + unfold iter_each_once. cbn [set_iter MiniJson.runtime]. reflexivity.
    + vm_compute. reflexivity.
  - intros x e. unfold two_subscribers_world, sample_world, delivers_all.
    cbn [net]. discriminate.
  - exists w1, w2, es. by repeat split.
Defined.

(** Chats 9, 5 and 9 again send [/start] to the store [[5, 7]]: one
    write, for chat 9. *)
Lemma starts_accumulate_witness :
  exists w' es,
    for_each [sample_update_of 9; sample_update_of 5; sample_update_of 9]
      (start (rt := MiniJson.runtime)) two_subscribers_world = (Ok tt, w')
    /\ trace w' = trace two_subscribers_world ++ es
    /\ (load_subscribers (rt := MiniJson.runtime) w').1
       = Ok ({[HInt 5; HInt 7]}
             ∪ chats_of [sample_update_of 9; sample_update_of 5;
                         sample_update_of 9])
    /\ count_events is_write es = 1%nat.
Proof.
  destruct (starts_accumulate (rt := MiniJson.runtime)
              [sample_update_of 9; sample_update_of 5; sample_update_of 9]
              two_subscribers_world {[HInt 5; HInt 7]})
    as (w' & es & Hrun & Htrace & Hload & _ & Hwrites).
  - vm_compute. reflexivity.
  - cbn [fmap list_fmap reads_back_along effective_chat_id sample_update_of].
    repeat split; try (intros _; split);
      try (unfold iter_each_once; cbn [set_iter MiniJson.runtime]; reflexivity);
      vm_compute; reflexivity.
  - exists w', es. split; [exact Hrun|]. split; [exact Htrace|].
    split; [exact Hload|]. rewrite Hwrites. vm_compute. reflexivity.
Defined.

(** In the store [[5, 7]]: after the job, after [/today], and after
    [/start] from chat 9. *)
Lemma store_only_grows_witness :
  (load_subscribers (rt := MiniJson.runtime)
     (send_schedule_job (rt := MiniJson.runtime) two_subscribers_world).2).1
  = Ok {[HInt 5; HInt 7]}
  /\ (load_subscribers (rt := MiniJson.runtime)
        (start (rt := MiniJson.runtime) sample_update two_subscribers_world).2).1
     = Ok ({[HInt 5; HInt 7]} ∪ {[HInt 9]}).
Proof.
  destruct (store_only_grows (rt := MiniJson.runtime)
              two_subscribers_world {[HInt 5; HInt 7]})
    as (Hjob & _ & Hstart); [vm_compute; reflexivity|].
  split; [exact Hjob|]. apply (Hstart sample_update).
  intros _. split.
  - unfold iter_each_once. cbn [set_iter MiniJson.runtime]. reflexivity.
  - vm_compute. reflexivity.
Defined.
